(** * ChatInterface: the session orchestrator of the visual atelier

    A shallow embedding of [src/app/components/ChatInterface.tsx]:
    the React state of the component as a record, each event handler as
    a state transformer, and the asynchronous [handleSend] split at its
    single [await] into the synchronous prefix and the continuation that
    runs when [renderGeminiCanvas] settles.

    Conventions.
    - A JavaScript string is a [string] holding the UTF-8 bytes of its
      text; a JavaScript [number] that holds an integer (the iteration
      counter, the readings of [Date.now()]) is a [Z].
    - [undefined] is [None].
    - The module [../lib/visualEngine] is not part of the sources at
      hand: [listStyleProfiles()], [pickStyleProfile] and the outcome
      of [renderGeminiCanvas] are parameters of the development.
    - A handler runs against the state of the latest render: React
      re-renders between two discrete events, so the values captured
      by a [useCallback] closure are the current ones when the handler
      starts.  What the continuation of [handleSend] uses after the
      [await] are the values captured before it. *)

From Stdlib Require Import String Ascii ZArith List Bool Lia Sorted.
From Stdlib Require Import DecimalString DecimalPos DecimalZ.
Import ListNotations.

Local Open Scope string_scope.
Local Open Scope Z_scope.

(** ** JavaScript primitives used by the component *)

Module JS.

(** [!s] on a string is true exactly on the empty string. *)
Definition truthy (s : string) : bool := negb (String.eqb s "").

(** [Boolean(x)] (and [!x], [x && ...]) for [x : string | undefined]. *)
Definition Boolean (x : option string) : bool :=
  match x with
  | Some s => truthy s
  | None => false
  end.

(** [a || b] on strings. *)
Definition or_else (a b : string) : string := if truthy a then a else b.

(** [`${n}`] for an integer [n] below 1e21 in absolute value: the
    decimal digits, with a leading minus sign when negative. *)
Definition number_to_string (n : Z) : string :=
  NilZero.string_of_int (Z.to_int n).

Definition bytes (l : list nat) : string :=
  string_of_list_ascii (map ascii_of_nat l).

(** The code points of ECMAScript's WhiteSpace and LineTerminator
    productions, in UTF-8: what [String.prototype.trim] strips. *)
Definition whitespace : list string :=
  map bytes
    [ [9]; [10]; [11]; [12]; [13]; [32]           (* TAB LF VT FF CR SP *)
    ; [194; 160]                                  (* U+00A0 *)
    ; [225; 154; 128]                             (* U+1680 *)
    ; [226; 128; 128]; [226; 128; 129]; [226; 128; 130]
    ; [226; 128; 131]; [226; 128; 132]; [226; 128; 133]
    ; [226; 128; 134]; [226; 128; 135]; [226; 128; 136]
    ; [226; 128; 137]; [226; 128; 138]            (* U+2000 .. U+200A *)
    ; [226; 128; 168]; [226; 128; 169]            (* U+2028 U+2029 *)
    ; [226; 128; 175]; [226; 129; 159]            (* U+202F U+205F *)
    ; [227; 128; 128]                             (* U+3000 *)
    ; [239; 187; 191] ]%nat.                      (* U+FEFF *)

Fixpoint strip_prefix (p s : string) : option string :=
  match p, s with
  | EmptyString, _ => Some s
  | String a p', String b s' =>
      if Ascii.eqb a b then strip_prefix p' s' else None
  | String _ _, EmptyString => None
  end.

Fixpoint strip_any (ws : list string) (s : string) : option string :=
  match ws with
  | [] => None
  | w :: ws' =>
      match strip_prefix w s with
      | Some r => Some r
      | None => strip_any ws' s
      end
  end.

Fixpoint strip_all (ws : list string) (fuel : nat) (s : string) : string :=
  match fuel with
  | O => s
  | S fuel' =>
      match strip_any ws s with
      | Some r => strip_all ws fuel' r
      | None => s
      end
  end.

Definition reverse (s : string) : string :=
  string_of_list_ascii (rev (list_ascii_of_string s)).

Definition trimStart (s : string) : string :=
  strip_all whitespace (String.length s) s.

Definition trimEnd (s : string) : string :=
  reverse (strip_all (map reverse whitespace) (String.length s) (reverse s)).

Definition trim (s : string) : string := trimEnd (trimStart s).

(** [s.split(/[...]/)] for a class of single characters: the pieces
    between the delimiters, empty pieces included. *)
Fixpoint split (delim : ascii -> bool) (s : string) : list string :=
  match s with
  | EmptyString => [""]
  | String c s' =>
      if delim c then "" :: split delim s'
      else match split delim s' with
           | [] => [String c ""]
           | piece :: pieces => String c piece :: pieces
           end
  end.

End JS.

(** ** Data model *)

(** [StyleProfile] is declared in [visualEngine]; the component reads
    its [id] and its [label] and passes the rest through unread. *)
Record StyleProfile := mkProfile
  { profile_id : string;
    profile_label : string }.

Inductive Role := user | assistant.

Record Meta := mkMeta
  { meta_styleId : string;
    meta_iteration : Z;
    meta_baseImageUsed : option bool }.

Record ChatMessage := mkMessage
  { msg_id : string;
    msg_role : Role;
    msg_text : string;
    msg_image : option string;
    msg_createdAt : Z;
    msg_meta : option Meta }.

(** The [useState] cells of [ChatInterface]. *)
Record State := mkState
  { messages : list ChatMessage;
    input : string;
    isBusy : bool;
    styleId : string;
    iteration : Z;
    baseImageData : option string;
    previewBaseName : option string }.

(** The state setters. *)
Definition setMessages (f : list ChatMessage -> list ChatMessage) (st : State) :=
  mkState (f (messages st)) (input st) (isBusy st) (styleId st)
          (iteration st) (baseImageData st) (previewBaseName st).

Definition setInput (v : string) (st : State) :=
  mkState (messages st) v (isBusy st) (styleId st)
          (iteration st) (baseImageData st) (previewBaseName st).

Definition setIsBusy (v : bool) (st : State) :=
  mkState (messages st) (input st) v (styleId st)
          (iteration st) (baseImageData st) (previewBaseName st).

Definition setStyleId (v : string) (st : State) :=
  mkState (messages st) (input st) (isBusy st) v
          (iteration st) (baseImageData st) (previewBaseName st).

Definition setIteration (v : Z) (st : State) :=
  mkState (messages st) (input st) (isBusy st) (styleId st)
          v (baseImageData st) (previewBaseName st).

Definition setBaseImageData (v : option string) (st : State) :=
  mkState (messages st) (input st) (isBusy st) (styleId st)
          (iteration st) v (previewBaseName st).

Definition setPreviewBaseName (v : option string) (st : State) :=
  mkState (messages st) (input st) (isBusy st) (styleId st)
          (iteration st) (baseImageData st) v.

(** How the promise returned by [renderGeminiCanvas] settles. *)
Inductive Outcome :=
| Resolved (image : string)
| Rejected.

(** A call of [handleSend] suspended at its [await]: the locals its
    continuation reads. *)
Record InFlight := mkInFlight
  { call_prompt : string;
    call_styleProfile : option StyleProfile;
    call_nextIteration : Z;
    call_baseImageData : option string }.

(** The component together with the calls of [handleSend] that are
    suspended at their [await], oldest first. *)
Record Config := mkConfig
  { state : State;
    inflight : list InFlight }.

(** What can happen to the component: the DOM events its handlers are
    bound to, and the settlement of an awaited promise.  [Send] and
    [Settle] carry the readings of [Date.now()] taken for the message
    they append: first the one printed into its [id], then [createdAt]. *)
Inductive Event :=
| TypeInput (value : string)           (* textarea onChange *)
| SelectStyle (value : string)         (* select onChange *)
| FileLoaded (result name : string)    (* reader.onload *)
| AdoptBase (image : option string)    (* "Usar como base" *)
| ClearBase                            (* "Limpar" *)
| Send (now_id now_created : Z)        (* button onClick, Enter *)
| Settle (k : nat) (outcome : Outcome) (now_id now_created : Z).

Fixpoint remove_nth {A : Type} (k : nat) (l : list A) : list A :=
  match l, k with
  | [], _ => []
  | _ :: l', O => l'
  | x :: l', S k' => x :: remove_nth k' l'
  end.

Definition initText : string :=
  "Oi! Sou o seu atelier visual estilo Gemini. Envie uma ideia e eu transformo em uma arte consistente. Você também pode carregar uma imagem para transformá-la.".

Definition initInput : string :=
  "Quero um pôster futurista de uma cidade submersa iluminada por neon.".

Definition fallbackText : string :=
  "Não consegui gerar a composição agora. Tente novamente com outro pedido ou recarregue a página.".

(** The fields of a keyboard event that [handleKeyDown] reads. *)
Record KeyEvent := mkKeyEvent
  { key : string;
    shiftKey : bool }.

(** A sample catalog and selector, on which the statements below are
    instantiated: [visualEngine] is not among the sources.  The selector
    is a hash of the whole seed reduced modulo the size of the catalog. *)
Module Demo.

Definition aurora : StyleProfile := mkProfile "aurora" "Aurora Boreal".
Definition noir : StyleProfile := mkProfile "noir" "Noir Urbano".

Definition listStyleProfiles : list StyleProfile := [aurora; noir].

Definition hash (seed : string) : nat :=
  fold_right (fun ch acc => (nat_of_ascii ch + acc)%nat) 0%nat
    (list_ascii_of_string seed).

Definition pickStyleProfile (seed : string) : StyleProfile :=
  nth (hash seed mod List.length listStyleProfiles) listStyleProfiles aurora.

(** Lower-casing of the ASCII letters. *)
Definition toLowerCase (s : string) : string :=
  string_of_list_ascii
    (map (fun ch =>
            let n := nat_of_ascii ch in
            if ((65 <=? n) && (n <=? 90))%nat
            then ascii_of_nat (n + 32) else ch)
       (list_ascii_of_string s)).

(** The component as first rendered, at a sample time. *)
Definition now : Z := 1700000000000.

Definition st0 : State :=
  mkState
    [ mkMessage "init-assistant" assistant initText None now
        (Some (mkMeta "aurora" 0 None)) ]
    initInput false "aurora" 0 None None.

Definition c0 : Config := mkConfig st0 [].

End Demo.

Section Orchestrator.

(** [const profileOptions = listStyleProfiles()]. *)
Variable profileOptions : list StyleProfile.
(** [pickStyleProfile] of [visualEngine]. *)
Variable pickStyleProfile : string -> StyleProfile.
(** [String.prototype.toLowerCase]. *)
Variable toLowerCase : string -> string.

(** [profileOptions.find(p => p.id === id) ?? profileOptions[0]] *)
Definition resolveProfile (id : string) : option StyleProfile :=
  match find (fun profile => String.eqb (profile_id profile) id) profileOptions with
  | Some profile => Some profile
  | None => nth_error profileOptions 0
  end.

Definition summarizePrompt (prompt : string) : string :=
  let keywords :=
    firstn 2
      (filter JS.truthy
         (map JS.trim
            (JS.split (fun c => existsb (Ascii.eqb c) [","; "."; ";"; "010"]%char)
               prompt))) in
  match keywords with
  | [] => "os conceitos principais do pedido"
  | [k0] => toLowerCase k0
  | k0 :: k1 :: _ => toLowerCase k0 ++ " e " ++ toLowerCase k1
  end.

Definition buildAssistantCaption
    (prompt : string) (profile : StyleProfile) (usedBase : bool) : string :=
  let summary := summarizePrompt prompt in
  let profileTone := profile_label profile in
  if usedBase then
    "Transformei a base fornecida seguindo o estilo " ++ profileTone
    ++ ". Destaquei " ++ summary ++ " e preservei a identidade estabelecida."
  else
    "Modelei uma composição original em " ++ profileTone
    ++ ", enfatizando " ++ summary ++ ". Podemos iterar com novos ajustes.".

(** The initial values of the [useState] cells; [profileOptions[0].id]
    throws on an empty catalog. *)
Definition initialState (now : Z) : option State :=
  match nth_error profileOptions 0 with
  | None => None
  | Some profile0 =>
      Some (mkState
              [ mkMessage "init-assistant" assistant initText None now
                  (Some (mkMeta (profile_id profile0) 0 None)) ]
              initInput false (profile_id profile0) 0 None None)
  end.

(** [reader.onload] of [handleFileChange], on a string result. *)
Definition handleFileChange (result name : string) (st : State) : State :=
  setPreviewBaseName (Some name) (setBaseImageData (Some result) st).

(** [handleSend] up to its [await]: the state after the synchronous
    prefix, and the suspended call when the submission is accepted.
    [now_id] and [now_created] are the two readings of [Date.now()]. *)
Definition handleSend (now_id now_created : Z) (st : State)
  : State * option InFlight :=
  let prompt := JS.trim (input st) in
  if negb (JS.truthy prompt) || isBusy st then (st, None)
  else
    let st1 := setInput "" (setIsBusy true st) in
    let firstProfile := pickStyleProfile (prompt ++ styleId st) in
    let st2 :=
      if negb (JS.truthy (styleId st))
      then setStyleId (profile_id firstProfile) st1
      else st1 in
    let userMessage :=
      mkMessage ("user-" ++ JS.number_to_string now_id) user prompt None
                now_created None in
    let st3 := setMessages (fun prev => prev ++ [userMessage])%list st2 in
    let styleProfile :=
      resolveProfile (JS.or_else (styleId st) (profile_id firstProfile)) in
    let nextIteration := iteration st + 1 in
    let st4 := setIteration nextIteration st3 in
    (st4, Some (mkInFlight prompt styleProfile nextIteration (baseImageData st))).

(** The rest of [handleSend], run when the awaited promise settles.
    With [styleProfile] undefined, [profile.label] throws inside the
    [try], and [styleProfile.id] throws again inside the [catch]:
    only the [finally] block takes effect. *)
Definition handleSend_settled
    (outcome : Outcome) (now_id now_created : Z) (call : InFlight)
    (st : State) : State :=
  match call_styleProfile call with
  | None => setIsBusy false st
  | Some styleProfile =>
      match outcome with
      | Resolved image =>
          let assistantText :=
            buildAssistantCaption (call_prompt call) styleProfile
              (JS.Boolean (call_baseImageData call)) in
          let assistantMessage :=
            mkMessage ("assistant-" ++ JS.number_to_string now_id) assistant
              assistantText (Some image) now_created
              (Some (mkMeta (profile_id styleProfile)
                       (call_nextIteration call)
                       (Some (JS.Boolean (call_baseImageData call))))) in
          setIsBusy false
            (setMessages (fun prev => prev ++ [assistantMessage])%list st)
      | Rejected =>
          let fallbackMessage :=
            mkMessage ("assistant-error-" ++ JS.number_to_string now_id)
              assistant fallbackText None now_created
              (Some (mkMeta (profile_id styleProfile)
                       (call_nextIteration call) None)) in
          setIsBusy false
            (setMessages (fun prev => prev ++ [fallbackMessage])%list st)
      end
  end.

Definition handleAdoptBase (image : option string) (st : State) : State :=
  match image with
  | Some data =>
      if negb (JS.truthy data) then st
      else setPreviewBaseName (Some "Canvas anterior")
             (setBaseImageData (Some data) st)
  | None => st
  end.

Definition handleClearBase (st : State) : State :=
  setPreviewBaseName None (setBaseImageData None st).

Definition step (c : Config) (e : Event) : Config :=
  match e with
  | TypeInput value => mkConfig (setInput value (state c)) (inflight c)
  | SelectStyle value => mkConfig (setStyleId value (state c)) (inflight c)
  | FileLoaded result name =>
      mkConfig (handleFileChange result name (state c)) (inflight c)
  | AdoptBase image => mkConfig (handleAdoptBase image (state c)) (inflight c)
  | ClearBase => mkConfig (handleClearBase (state c)) (inflight c)
  | Send now_id now_created =>
      match handleSend now_id now_created (state c) with
      | (st', Some call) => mkConfig st' (inflight c ++ [call])
      | (st', None) => mkConfig st' (inflight c)
      end
  | Settle k outcome now_id now_created =>
      match nth_error (inflight c) k with
      | Some call =>
          mkConfig (handleSend_settled outcome now_id now_created call (state c))
                   (remove_nth k (inflight c))
      | None => c
      end
  end.

Definition run (c : Config) (trace : list Event) : Config :=
  fold_left step trace c.

(** The component as first rendered at time [now]. *)
Definition start (now : Z) : option Config :=
  match initialState now with
  | Some st => Some (mkConfig st [])
  | None => None
  end.

(** Event classes used to state frame properties. *)
Definition is_settle (e : Event) : bool :=
  match e with Settle _ _ _ _ => true | _ => false end.

Definition is_send (e : Event) : bool :=
  match e with Send _ _ => true | _ => false end.

Definition is_select (e : Event) : bool :=
  match e with SelectStyle _ => true | _ => false end.

(** The events that replace or remove the base image. *)
Definition touches_base (e : Event) : bool :=
  match e with
  | FileLoaded _ _ | ClearBase => true
  | AdoptBase image => JS.Boolean image
  | _ => false
  end.

(** The [meta.iteration] values of a log, in order. *)
Definition log_iterations (log : list ChatMessage) : list Z :=
  flat_map (fun m => match msg_meta m with
                     | Some mt => [meta_iteration mt]
                     | None => []
                     end) log.

(** The message kinds, by the prefix of their [id]. *)
Inductive Kind := KUser | KAssistant | KError.

(** The clock readings a trace prints into message ids, with the kind
    of message each is for. *)
Definition id_stamps (trace : list Event) : list (Kind * Z) :=
  flat_map (fun e => match e with
                     | Send now_id _ => [(KUser, now_id)]
                     | Settle _ (Resolved _) now_id _ => [(KAssistant, now_id)]
                     | Settle _ Rejected now_id _ => [(KError, now_id)]
                     | _ => []
                     end) trace.

(** [styleId || firstProfile.id] of [handleSend]: the id the
    submission resolves its profile from. *)
Definition effectiveStyleId (st : State) : string :=
  JS.or_else (styleId st)
    (profile_id (pickStyleProfile (JS.trim (input st) ++ styleId st))).

(** The state and the suspended call an accepted submission yields. *)
Definition accepted_state (now_id now_created : Z) (st : State) : State :=
  mkState
    (messages st
     ++ [mkMessage ("user-" ++ JS.number_to_string now_id) user
           (JS.trim (input st)) None now_created None])%list
    "" true (effectiveStyleId st)
    (iteration st + 1) (baseImageData st) (previewBaseName st).

Definition accepted_call (st : State) : InFlight :=
  mkInFlight (JS.trim (input st)) (resolveProfile (effectiveStyleId st))
    (iteration st + 1) (baseImageData st).

(** The assistant message a settlement appends. *)
Definition settled_message
    (outcome : Outcome) (now_id now_created : Z) (prompt : string)
    (profile : StyleProfile) (nextIteration : Z) (base : option string)
  : ChatMessage :=
  match outcome with
  | Resolved image =>
      mkMessage ("assistant-" ++ JS.number_to_string now_id) assistant
        (buildAssistantCaption prompt profile (JS.Boolean base))
        (Some image) now_created
        (Some (mkMeta (profile_id profile) nextIteration
                 (Some (JS.Boolean base))))
  | Rejected =>
      mkMessage ("assistant-error-" ++ JS.number_to_string now_id) assistant
        fallbackText None now_created
        (Some (mkMeta (profile_id profile) nextIteration None))
  end.

(** The id of a message, from its kind and the clock reading. *)
Definition id_prefix (k : Kind) : string :=
  match k with
  | KUser => "user-"
  | KAssistant => "assistant-"
  | KError => "assistant-error-"
  end.

Definition message_id (k : Kind) (t : Z) : string :=
  id_prefix k ++ JS.number_to_string t.

(** An upload hands over a data URL, which is never the empty string. *)
Definition upload_ok (e : Event) : bool :=
  match e with
  | FileLoaded result _ => JS.truthy result
  | _ => true
  end.

(** The part of a configuration that only [handleSend] writes. *)
Definition core_eq (c c' : Config) : Prop :=
  messages (state c') = messages (state c)
  /\ iteration (state c') = iteration (state c)
  /\ isBusy (state c') = isBusy (state c)
  /\ inflight c' = inflight c.

(** The invariant of the configurations the component can reach:
    either it is idle and no call is suspended, or it is busy and
    exactly one call is, which carries the current counter and a
    resolved profile; the iteration numbers of the log increase and
    stay below the counter (strictly while a call is suspended). *)
Definition Inv (c : Config) : Prop :=
  let its := log_iterations (messages (state c)) in
  StronglySorted Z.lt its
  /\ ((isBusy (state c) = false /\ inflight c = []
       /\ Forall (fun i => i <= iteration (state c)) its)
      \/ (isBusy (state c) = true
          /\ exists call,
              inflight c = [call]
              /\ call_nextIteration call = iteration (state c)
              /\ call_styleProfile call <> None
              /\ Forall (fun i => i < iteration (state c)) its)).

(** [handleKeyDown]: whether [event.preventDefault()] was called, and
    what [handleSend] did when it was called. *)
Definition handleKeyDown
    (event : KeyEvent) (now_id now_created : Z) (st : State)
  : bool * (State * option InFlight) :=
  if String.eqb (key event) "Enter" && negb (shiftKey event)
  then (true, handleSend now_id now_created st)
  else (false, (st, None)).

(** The parts of the rendered tree that depend on the state. *)

(** [disabled={isBusy || !input.trim()}] of the send button. *)
Definition sendDisabled (st : State) : bool :=
  isBusy st || negb (JS.truthy (JS.trim (input st))).

(** The line under the preview of the base image, when it is shown:
    [{baseImageData && ... Base ativa: {previewBaseName ?? "Imagem carregada"}}]. *)
Definition baseCaption (st : State) : option string :=
  if JS.Boolean (baseImageData st)
  then Some ("Base ativa: "
             ++ match previewBaseName st with
                | Some name => name
                | None => "Imagem carregada"
                end)
  else None.

(** [message.meta?.baseImageUsed] as a condition. *)
Definition usedBase (m : ChatMessage) : bool :=
  match msg_meta m with
  | Some mt =>
      match meta_baseImageUsed mt with
      | Some b => b
      | None => false
      end
  | None => false
  end.

(** The badge under the image of a message, when the image (and with
    it the button "Usar como base") is shown. *)
Definition imageBadge (m : ChatMessage) : option string :=
  if JS.Boolean (msg_image m)
  then Some (if usedBase m then "Transformação estilizada"
             else "Composição original")
  else None.

(** The footer of a message:
    [{message.meta && message.role === "assistant" && ...}].  The outer
    [None] stands for the TypeError that [.label] raises on an
    undefined profile. *)
Definition metaFooter (m : ChatMessage) : option (option string) :=
  match msg_meta m, msg_role m with
  | Some mt, assistant =>
      match resolveProfile (meta_styleId mt) with
      | Some profile =>
          Some (Some (profile_label profile ++ " · Iteração "
                      ++ JS.number_to_string (meta_iteration mt)))
      | None => None
      end
  | _, _ => Some None
  end.

(** The delimiters of [/[,.;\n]/] and the [keywords] of
    [summarizePrompt]. *)
Definition is_clause_delimiter (c : ascii) : bool :=
  existsb (Ascii.eqb c) [","; "."; ";"; "010"]%char.

Definition promptKeywords (prompt : string) : list string :=
  firstn 2 (filter JS.truthy (map JS.trim (JS.split is_clause_delimiter prompt))).

(** The values the select control can report: the ids of its options. *)
Definition select_ok (e : Event) : bool :=
  match e with
  | SelectStyle value =>
      existsb (String.eqb value) (map profile_id profileOptions)
  | _ => true
  end.

Definition is_typing (e : Event) : bool :=
  match e with TypeInput _ => true | _ => false end.

(** What every message of a log looks like: a user message has a
    non-empty text and neither image nor meta; an assistant message has
    a meta, and an image exactly when the meta has [baseImageUsed]. *)
Definition message_ok (m : ChatMessage) : Prop :=
  match msg_role m with
  | user => msg_text m <> "" /\ msg_image m = None /\ msg_meta m = None
  | assistant =>
      exists mt,
        msg_meta m = Some mt
        /\ (msg_image m = None <-> meta_baseImageUsed mt = None)
  end.

(** The roles of [n] completed exchanges. *)
Fixpoint turns (n : nat) : list Role :=
  match n with
  | O => []
  | S n' => user :: assistant :: turns n'
  end.

(** ** Basic facts about the primitives and the handlers *)

Lemma truthy_true (s : string) : JS.truthy s = true <-> s <> "".
Proof.
  unfold JS.truthy. rewrite negb_true_iff. apply String.eqb_neq.
Qed.

Lemma truthy_false (s : string) : JS.truthy s = false <-> s = "".
Proof.
  unfold JS.truthy. rewrite negb_false_iff. apply String.eqb_eq.
Qed.

Lemma or_else_truthy (a b : string) : a <> "" -> JS.or_else a b = a.
Proof.
  intros Ha. unfold JS.or_else. apply truthy_true in Ha. now rewrite Ha.
Qed.

Lemma resolveProfile_nonempty (id : string) :
  profileOptions <> [] -> resolveProfile id <> None.
Proof.
  intros Hne. unfold resolveProfile.
  destruct (find _ profileOptions); [discriminate|].
  destruct profileOptions; [contradiction | discriminate].
Qed.

Lemma handleSend_accepted (now_id now_created : Z) (st : State) :
  JS.trim (input st) <> "" -> isBusy st = false ->
  handleSend now_id now_created st
  = (accepted_state now_id now_created st, Some (accepted_call st)).
Proof.
  intros Hp Hb.
  unfold handleSend, accepted_state, accepted_call, effectiveStyleId.
  apply truthy_true in Hp. rewrite Hp, Hb. cbn [negb orb].
  unfold JS.or_else.
  destruct (JS.truthy (styleId st)); reflexivity.
Qed.

Lemma handleSend_rejected (now_id now_created : Z) (st : State) :
  JS.trim (input st) = "" \/ isBusy st = true ->
  handleSend now_id now_created st = (st, None).
Proof.
  intros [Hp | Hb]; unfold handleSend.
  - apply truthy_false in Hp. now rewrite Hp.
  - rewrite Hb. now rewrite orb_true_r.
Qed.

Lemma run_app (c : Config) (t1 t2 : list Event) :
  run c (t1 ++ t2) = run (run c t1) t2.
Proof. apply fold_left_app. Qed.

Lemma run_cons (c : Config) (e : Event) (t : list Event) :
  run c (e :: t) = run (step c e) t.
Proof. reflexivity. Qed.

Lemma handleAdoptBase_core (image : option string) (st : State) :
  messages (handleAdoptBase image st) = messages st
  /\ iteration (handleAdoptBase image st) = iteration st
  /\ isBusy (handleAdoptBase image st) = isBusy st
  /\ styleId (handleAdoptBase image st) = styleId st
  /\ input (handleAdoptBase image st) = input st.
Proof.
  unfold handleAdoptBase. destruct image as [data|]; [|easy].
  destruct (JS.truthy data); easy.
Qed.

(** While a generation is in flight, nothing but its settlement
    writes the log, the counter, the busy flag or the set of calls. *)
Lemma step_busy_frame (c : Config) (e : Event) :
  isBusy (state c) = true -> is_settle e = false ->
  core_eq c (step c e)
  /\ (is_select e = false -> styleId (state (step c e)) = styleId (state c)).
Proof.
  intros Hb Hs. unfold core_eq.
  destruct e; try discriminate; cbn [step state inflight].
  - easy.
  - repeat split. discriminate.
  - easy.
  - destruct (handleAdoptBase_core image (state c)) as (?&?&?&?&?). easy.
  - easy.
  - rewrite handleSend_rejected by now right. easy.
Qed.

Lemma run_busy_frame (c : Config) (trace : list Event) :
  isBusy (state c) = true ->
  forallb (fun e => negb (is_settle e)) trace = true ->
  core_eq c (run c trace)
  /\ (forallb (fun e => negb (is_select e)) trace = true ->
      styleId (state (run c trace)) = styleId (state c)).
Proof.
  revert c. induction trace as [|e trace IH]; intros c Hb Hq.
  - unfold core_eq. easy.
  - cbn [forallb] in Hq. apply andb_true_iff in Hq as [He Hq].
    apply negb_true_iff in He. rewrite run_cons.
    destruct (step_busy_frame c e Hb He) as [(Hm & Hi & Hbz & Hf) Hsty].
    destruct (IH (step c e)) as [(Hm' & Hi' & Hb' & Hf') Hsty'];
      [congruence | assumption |].
    unfold core_eq. repeat split; try congruence.
    cbn [forallb]. intros Hsel. apply andb_true_iff in Hsel as [Hse Hsel].
    apply negb_true_iff in Hse. rewrite Hsty' by assumption. now apply Hsty.
Qed.

(** Events other than a submission or a settlement never write them. *)
Lemma step_idle_frame (c : Config) (e : Event) :
  is_settle e = false -> is_send e = false ->
  core_eq c (step c e)
  /\ (is_select e = false -> styleId (state (step c e)) = styleId (state c)).
Proof.
  intros Hs Hd. unfold core_eq.
  destruct e; try discriminate; cbn [step state inflight].
  - easy.
  - repeat split. discriminate.
  - easy.
  - destruct (handleAdoptBase_core image (state c)) as (?&?&?&?&?). easy.
  - easy.
Qed.

Lemma run_idle_frame (c : Config) (trace : list Event) :
  forallb (fun e => negb (is_settle e || is_send e)) trace = true ->
  core_eq c (run c trace)
  /\ (forallb (fun e => negb (is_select e)) trace = true ->
      styleId (state (run c trace)) = styleId (state c)).
Proof.
  revert c. induction trace as [|e trace IH]; intros c Hq.
  - unfold core_eq. easy.
  - cbn [forallb] in Hq. apply andb_true_iff in Hq as [He Hq].
    apply negb_true_iff, orb_false_iff in He as [He1 He2]. rewrite run_cons.
    destruct (step_idle_frame c e He1 He2) as [(Hm & Hi & Hbz & Hf) Hsty].
    destruct (IH (step c e) Hq) as [(Hm' & Hi' & Hb' & Hf') Hsty'].
    unfold core_eq. repeat split; try congruence.
    cbn [forallb]. intros Hsel. apply andb_true_iff in Hsel as [Hse Hsel].
    apply negb_true_iff in Hse. rewrite Hsty' by assumption. now apply Hsty.
Qed.

Lemma step_send_accepted (c : Config) (now_id now_created : Z) :
  JS.trim (input (state c)) <> "" -> isBusy (state c) = false ->
  step c (Send now_id now_created)
  = mkConfig (accepted_state now_id now_created (state c))
             (inflight c ++ [accepted_call (state c)]).
Proof.
  intros Hp Hb. cbn [step]. now rewrite handleSend_accepted.
Qed.

(** The configuration in which an accepted submission waits for its
    promise: whatever else happens meanwhile, the log, the counter and
    the suspended call are the ones the submission left. *)
Lemma waiting_config (st : State) (mid : list Event) (now_id now_created : Z) :
  JS.trim (input st) <> "" -> isBusy st = false ->
  forallb (fun e => negb (is_settle e)) mid = true ->
  let before := run (mkConfig st []) (Send now_id now_created :: mid) in
  messages (state before) = messages (accepted_state now_id now_created st)
  /\ iteration (state before) = iteration st + 1
  /\ isBusy (state before) = true
  /\ inflight before = [accepted_call st]
  /\ (forallb (fun e => negb (is_select e)) mid = true ->
      styleId (state before)
      = styleId (accepted_state now_id now_created st)).
Proof.
  intros Hp Hb Hq before. subst before.
  rewrite run_cons, step_send_accepted by assumption.
  cbn [state inflight app].
  destruct (run_busy_frame
              (mkConfig (accepted_state now_id now_created st)
                        [accepted_call st]) mid eq_refl Hq)
    as [(Hm & Hi & Hbz & Hf) Hsty].
  cbn [state inflight] in *. repeat split; try assumption.
Qed.

Lemma handleSend_settled_frame
    (outcome : Outcome) (now_id now_created : Z) (call : InFlight) (st : State) :
  let st' := handleSend_settled outcome now_id now_created call st in
  isBusy st' = false
  /\ iteration st' = iteration st
  /\ styleId st' = styleId st
  /\ input st' = input st
  /\ baseImageData st' = baseImageData st
  /\ previewBaseName st' = previewBaseName st.
Proof.
  unfold handleSend_settled.
  destruct (call_styleProfile call); [destruct outcome|]; cbn; easy.
Qed.

Lemma StronglySorted_snoc {A : Type} (R : A -> A -> Prop) (l : list A) (x : A) :
  StronglySorted R l -> Forall (fun y => R y x) l ->
  StronglySorted R (l ++ [x]).
Proof.
  induction 1 as [|a l Hl IH Ha]; intros Hx; cbn.
  - constructor; constructor.
  - inversion Hx as [|? ? Hax Hlx]; subst.
    constructor; [now apply IH|].
    apply Forall_app; split; [assumption | now constructor].
Qed.

Lemma StronglySorted_lt_le (l : list Z) :
  StronglySorted Z.lt l -> StronglySorted Z.le l.
Proof.
  induction 1 as [|a l Hl IH Ha]; constructor; [assumption|].
  eapply Forall_impl; [|exact Ha]. intros; cbn in *; lia.
Qed.

Lemma log_iterations_snoc (log : list ChatMessage) (m : ChatMessage) :
  log_iterations (log ++ [m])
  = (log_iterations log
     ++ match msg_meta m with
        | Some mt => [meta_iteration mt]
        | None => []
        end)%list.
Proof.
  unfold log_iterations. rewrite flat_map_app. cbn. now rewrite app_nil_r.
Qed.

Lemma Inv_core_eq (c c' : Config) : core_eq c c' -> Inv c -> Inv c'.
Proof.
  intros (Hm & Hi & Hb & Hf). unfold Inv. now rewrite Hm, Hi, Hb, Hf.
Qed.

Lemma start_Inv (now : Z) (c0 : Config) :
  start now = Some c0 ->
  profileOptions <> [] /\ Inv c0 /\ iteration (state c0) = 0.
Proof.
  unfold start, initialState.
  destruct profileOptions as [|p0 rest]; cbn; [discriminate|].
  intros [= <-]. split; [discriminate|]. split; [|reflexivity].
  unfold Inv. cbn. split.
  - repeat constructor.
  - left. repeat split. constructor; [lia | constructor].
Qed.

Lemma step_Inv (c : Config) (e : Event) :
  profileOptions <> [] -> Inv c -> Inv (step c e).
Proof.
  intros Hne HI.
  destruct (is_settle e) eqn:Hset.
  - (* the promise settles *)
    destruct e; try discriminate. cbn [step].
    destruct HI as [Hsort [(Hb & Hf & Hle) | (Hb & call & Hf & Hit & Hprof & Hlt)]].
    + rewrite Hf. destruct k; cbn [nth_error]; unfold Inv; auto.
    + rewrite Hf. destruct k as [|k]; cbn [nth_error remove_nth].
      * unfold Inv, handleSend_settled.
        destruct (call_styleProfile call) as [profile|]; [|contradiction].
        assert (Hsnoc : StronglySorted Z.lt
                  (log_iterations (messages (state c))
                   ++ [call_nextIteration call])).
        { apply StronglySorted_snoc; [assumption|]. now rewrite Hit. }
        assert (Hbound : Forall (fun i => i <= iteration (state c))
                  (log_iterations (messages (state c))
                   ++ [call_nextIteration call])).
        { apply Forall_app; split.
          - eapply Forall_impl; [|exact Hlt]. intros; cbn in *; lia.
          - constructor; [lia | constructor]. }
        destruct outcome; cbn [state inflight setIsBusy setMessages messages
                               isBusy iteration];
          rewrite log_iterations_snoc; cbn [msg_meta meta_iteration];
          (split; [assumption | left; repeat split; assumption]).
      * destruct k; cbn [nth_error]; unfold Inv; eauto 10.
  - destruct (is_send e) eqn:Hsend.
    + (* a submission *)
      destruct e; try discriminate.
      destruct HI as [Hsort [(Hb & Hf & Hle) | (Hb & call & Hf & Hit & Hprof & Hlt)]].
      * destruct (string_dec (JS.trim (input (state c))) "") as [Hp|Hp].
        -- cbn [step]. rewrite handleSend_rejected by now left.
           unfold Inv. cbn [state inflight]. auto.
        -- rewrite step_send_accepted by assumption.
           unfold Inv, accepted_state, accepted_call.
           cbn [state inflight messages isBusy iteration].
           rewrite log_iterations_snoc. cbn [msg_meta]. rewrite app_nil_r.
           split; [assumption|]. right. split; [reflexivity|].
           rewrite Hf. eexists. split; [reflexivity|].
           cbn [call_nextIteration call_styleProfile].
           split; [reflexivity|]. split; [now apply resolveProfile_nonempty|].
           eapply Forall_impl; [|exact Hle]. intros; cbn in *; lia.
      * cbn [step]. rewrite handleSend_rejected by now right.
        unfold Inv. cbn [state inflight]. eauto 10.
    + eapply Inv_core_eq; [|exact HI]. now apply step_idle_frame.
Qed.

Lemma run_Inv (c : Config) (trace : list Event) :
  profileOptions <> [] -> Inv c -> Inv (run c trace).
Proof.
  intros Hne. revert c. induction trace as [|e trace IH]; intros c HI.
  - exact HI.
  - rewrite run_cons. apply IH. now apply step_Inv.
Qed.

(** One whole generation: an accepted submission, whatever happens
    while its promise is pending, and the settlement. *)
Lemma generation
    (st : State) (mid : list Event) (outcome : Outcome) (t1 t2 t3 t4 : Z) :
  profileOptions <> [] ->
  JS.trim (input st) <> "" -> isBusy st = false ->
  forallb (fun e => negb (is_settle e)) mid = true ->
  let before := run (mkConfig st []) (Send t1 t2 :: mid) in
  let after := step before (Settle 0 outcome t3 t4) in
  exists profile,
    resolveProfile (effectiveStyleId st) = Some profile
    /\ messages (state before) = messages (accepted_state t1 t2 st)
    /\ messages (state after)
       = (messages (state before)
          ++ [settled_message outcome t3 t4 (JS.trim (input st)) profile
                (iteration st + 1) (baseImageData st)])%list
    /\ iteration (state after) = iteration st + 1
    /\ isBusy (state after) = false
    /\ inflight after = []
    /\ baseImageData (state after) = baseImageData (state before)
    /\ previewBaseName (state after) = previewBaseName (state before)
    /\ input (state after) = input (state before)
    /\ styleId (state after) = styleId (state before)
    /\ (forallb (fun e => negb (is_select e)) mid = true ->
        styleId (state after) = effectiveStyleId st).
Proof.
  intros Hne Hp Hb Hq before after.
  destruct (waiting_config st mid t1 t2 Hp Hb Hq)
    as (Hm & Hi & Hbz & Hf & Hsty).
  fold before in Hm, Hi, Hbz, Hf, Hsty.
  destruct (resolveProfile (effectiveStyleId st)) as [profile|] eqn:Hres;
    [| now apply resolveProfile_nonempty in Hres].
  exists profile. split; [reflexivity|]. split; [exact Hm|].
  subst after. cbn [step]. rewrite Hf. cbn [nth_error].
  unfold handleSend_settled, accepted_call, settled_message.
  cbn [call_styleProfile call_nextIteration call_prompt call_baseImageData].
  rewrite Hres.
  destruct outcome; cbn; repeat split; try assumption; try reflexivity.
Qed.

Lemma forallb_imp {A : Type} (p q : A -> bool) (l : list A) :
  (forall x, p x = true -> q x = true) ->
  forallb p l = true -> forallb q l = true.
Proof.
  intros Hpq Hp. apply forallb_forall. intros x Hx.
  apply Hpq. revert x Hx. now apply forallb_forall.
Qed.

Lemma or_else_nonempty (a b : string) :
  a <> "" \/ b <> "" -> JS.or_else a b <> "".
Proof.
  unfold JS.or_else. destruct (JS.truthy a) eqn:Ha.
  - intros _. now apply truthy_true.
  - apply truthy_false in Ha. subst a. now intros [H | H].
Qed.

Lemma handleSend_base (now_id now_created : Z) (st : State) :
  baseImageData (fst (handleSend now_id now_created st)) = baseImageData st
  /\ previewBaseName (fst (handleSend now_id now_created st))
     = previewBaseName st
  /\ (forall call,
        snd (handleSend now_id now_created st) = Some call ->
        call_baseImageData call = baseImageData st).
Proof.
  unfold handleSend.
  destruct (negb (JS.truthy (JS.trim (input st))) || isBusy st).
  - cbn. repeat split. discriminate.
  - destruct (JS.truthy (styleId st)); cbn; repeat split;
      now intros call [= <-].
Qed.

Lemma Forall_remove_nth {A : Type} (P : A -> Prop) (k : nat) (l : list A) :
  Forall P l -> Forall P (remove_nth k l).
Proof.
  intros H. revert k. induction H as [|x l Hx Hl IH]; intros k.
  - destruct k; constructor.
  - destruct k; cbn; [assumption | constructor; auto].
Qed.

(** Only an upload, a clearing and an adoption write the base image
    and its label, and a call started meanwhile captures that base. *)
Lemma step_base_frame (c : Config) (e : Event) :
  touches_base e = false ->
  baseImageData (state (step c e)) = baseImageData (state c)
  /\ previewBaseName (state (step c e)) = previewBaseName (state c)
  /\ (Forall (fun call => call_baseImageData call = baseImageData (state c))
        (inflight c) ->
      Forall (fun call => call_baseImageData call = baseImageData (state c))
        (inflight (step c e))).
Proof.
  intros Ht. destruct e; try discriminate; cbn [step state inflight].
  - easy.
  - easy.
  - cbn in Ht. destruct image as [data|]; cbn in *; [|easy].
    rewrite Ht. cbn. easy.
  - destruct (handleSend_base now_id now_created (state c))
      as (Hbz & Hn & Hcall).
    destruct (handleSend now_id now_created (state c)) as [st' [call|]];
      cbn [fst snd state inflight] in *;
      (split; [assumption|]); (split; [assumption|]); intros Hall;
      [|assumption].
    apply Forall_app. split; [assumption|].
    constructor; [now apply Hcall | constructor].
  - destruct (nth_error (inflight c) k) as [call|]; [|easy].
    cbn [state inflight].
    destruct (handleSend_settled_frame outcome now_id now_created call (state c))
      as (_ & _ & _ & _ & Hbz & Hn).
    repeat split; try assumption. apply Forall_remove_nth.
Qed.

Lemma run_base_frame (c : Config) (trace : list Event) :
  forallb (fun e => negb (touches_base e)) trace = true ->
  baseImageData (state (run c trace)) = baseImageData (state c)
  /\ previewBaseName (state (run c trace)) = previewBaseName (state c)
  /\ (Forall (fun call => call_baseImageData call = baseImageData (state c))
        (inflight c) ->
      Forall (fun call => call_baseImageData call = baseImageData (state c))
        (inflight (run c trace))).
Proof.
  revert c. induction trace as [|e trace IH]; intros c Hq.
  - easy.
  - cbn [forallb] in Hq. apply andb_true_iff in Hq as [He Hq].
    apply negb_true_iff in He. rewrite run_cons.
    destruct (step_base_frame c e He) as (Hbz & Hn & Hall).
    destruct (IH (step c e) Hq) as (Hbz' & Hn' & Hall').
    rewrite Hbz in *. repeat split; try congruence. auto.
Qed.

Lemma handleAdoptBase_adopts (image : option string) (st : State) :
  JS.Boolean image = true ->
  baseImageData (handleAdoptBase image st) = image
  /\ previewBaseName (handleAdoptBase image st) = Some "Canvas anterior".
Proof.
  destruct image as [data|]; cbn; [|discriminate].
  intros ->. cbn. easy.
Qed.

(** The base image of a reachable configuration is never the empty
    string: uploads are data URLs and [handleAdoptBase] refuses it. *)
Lemma base_image_never_empty (now : Z) (c0 : Config) (trace : list Event) :
  start now = Some c0 ->
  forallb upload_ok trace = true ->
  baseImageData (state (run c0 trace)) <> Some "".
Proof.
  intros Hstart.
  assert (H0 : baseImageData (state c0) <> Some "").
  { unfold start, initialState in Hstart.
    destruct (nth_error profileOptions 0); [|discriminate].
    injection Hstart as <-. discriminate. }
  clear Hstart. revert c0 H0.
  induction trace as [|e trace IH]; intros c H0 Hq; [exact H0|].
  cbn [forallb] in Hq. apply andb_true_iff in Hq as [He Hq].
  rewrite run_cons. apply IH; [|exact Hq].
  destruct (touches_base e) eqn:Ht.
  - destruct e; try discriminate; cbn [step state].
    + cbn in He. cbn. intros [= ->]. discriminate.
    + destruct (handleAdoptBase_adopts image (state c) Ht) as [-> _].
      intros ->. discriminate.
  - destruct (step_base_frame c e Ht) as [-> _]. exact H0.
Qed.

(** Decimal printing can be read back. *)
Lemma number_to_string_parses (z : Z) :
  NilZero.int_of_string (JS.number_to_string z) = Some (Z.to_int z).
Proof.
  unfold JS.number_to_string. apply NilZero.isi.
  - destruct z; cbn; try discriminate.
    intros [= H]. now apply DecimalPos.Unsigned.to_uint_nonnil in H.
  - destruct z; cbn; try discriminate.
    intros [= H]. now apply DecimalPos.Unsigned.to_uint_nonnil in H.
Qed.

Lemma number_to_string_inj (a b : Z) :
  JS.number_to_string a = JS.number_to_string b -> a = b.
Proof.
  intros H. apply (f_equal NilZero.int_of_string) in H.
  rewrite !number_to_string_parses in H. injection H as H.
  apply (f_equal Z.of_int) in H. now rewrite !DecimalZ.of_to in H.
Qed.

Lemma number_to_string_not_error (z : Z) (s : string) :
  JS.number_to_string z <> "error-" ++ s.
Proof.
  intros H. pose proof (number_to_string_parses z) as Hp.
  rewrite H in Hp. cbn in Hp.
  destruct (NilEmpty.uint_of_string s); discriminate.
Qed.

Lemma message_id_inj (k k' : Kind) (t t' : Z) :
  message_id k t = message_id k' t' -> (k, t) = (k', t').
Proof.
  unfold message_id.
  destruct k, k'; cbn; intros H; try discriminate;
    injection H as H;
    try (apply number_to_string_inj in H; now subst);
    try (now apply number_to_string_not_error in H);
    try (symmetry in H; now apply number_to_string_not_error in H).
Qed.

Lemma message_id_not_init (k : Kind) (t : Z) :
  message_id k t <> "init-assistant".
Proof. destruct k; discriminate. Qed.

(** A step leaves the log alone or appends one message, whose id is
    built from the reading the event carries. *)
Lemma step_log (c : Config) (e : Event) :
  messages (state (step c e)) = messages (state c)
  \/ exists m k t,
       messages (state (step c e)) = (messages (state c) ++ [m])%list
       /\ msg_id m = message_id k t
       /\ id_stamps [e] = [(k, t)].
Proof.
  destruct e; cbn [step state].
  - now left.
  - now left.
  - now left.
  - left. apply handleAdoptBase_core.
  - now left.
  - unfold handleSend.
    destruct (negb (JS.truthy (JS.trim (input (state c)))) || isBusy (state c)).
    + now left.
    + right. exists
        (mkMessage ("user-" ++ JS.number_to_string now_id) user
           (JS.trim (input (state c))) None now_created None),
        KUser, now_id.
      destruct (JS.truthy (styleId (state c))); cbn; auto.
  - destruct (nth_error (inflight c) k) as [call|]; [|now left].
    cbn [state]. unfold handleSend_settled.
    destruct (call_styleProfile call) as [profile|]; [|now left].
    right. destruct outcome.
    + eexists. exists KAssistant, now_id. cbn. auto.
    + eexists. exists KError, now_id. cbn. auto.
Qed.

Lemma id_stamps_app (t1 t2 : list Event) :
  id_stamps (t1 ++ t2) = (id_stamps t1 ++ id_stamps t2)%list.
Proof. apply flat_map_app. Qed.

(** Every id of a reachable log is the initial one or is built from a
    reading of the trace, and no id occurs twice while the readings,
    kind by kind, are distinct. *)
Lemma ids_from_stamps (now : Z) (c0 : Config) (trace : list Event) :
  start now = Some c0 ->
  NoDup (id_stamps trace) ->
  let ids := map msg_id (messages (state (run c0 trace))) in
  NoDup ids
  /\ forall id, In id ids ->
       id = "init-assistant"
       \/ exists k t, In (k, t) (id_stamps trace) /\ id = message_id k t.
Proof.
  intros Hstart. induction trace as [|e trace IH] using rev_ind; intros Hnd.
  - unfold start, initialState in Hstart.
    destruct (nth_error profileOptions 0); [|discriminate].
    injection Hstart as <-. cbn. split.
    + constructor; [easy | constructor].
    + intros id [<- | []]. now left.
  - rewrite id_stamps_app in Hnd.
    destruct (IH (NoDup_app_remove_r _ _ Hnd)) as [Hids Hfrom].
    cbn zeta. rewrite run_app. cbn [run fold_left].
    fold (run c0 trace) in *.
    destruct (step_log (run c0 trace) e) as [-> | (m & k & t & -> & Hm & He)].
    + split; [exact Hids|]. intros id Hin.
      destruct (Hfrom id Hin) as [-> | (k & t & Hkt & ->)]; [now left|].
      right. exists k, t. rewrite id_stamps_app. split; [|reflexivity].
      apply in_or_app. now left.
    + rewrite He in Hnd. rewrite map_app. cbn [map]. rewrite Hm. split.
      * apply NoDup_app; [exact Hids | constructor; [easy | constructor] |].
        intros id Hin [<- | []].
        destruct (Hfrom _ Hin) as [Hinit | (k' & t' & Hkt & Heq)].
        -- now apply message_id_not_init in Hinit.
        -- apply message_id_inj in Heq. rewrite <- Heq in Hkt.
           apply NoDup_remove_2 in Hnd. apply Hnd.
           rewrite app_nil_r. exact Hkt.
      * intros id Hin. apply in_app_or in Hin as [Hin | [<- | []]].
        -- destruct (Hfrom id Hin) as [-> | (k' & t' & Hkt & ->)]; [now left|].
           right. exists k', t'. rewrite id_stamps_app.
           split; [|reflexivity]. apply in_or_app. now left.
        -- right. exists k, t. rewrite id_stamps_app, He.
           split; [|reflexivity]. apply in_or_app. right. now left.
Qed.

Lemma run_log_prefix (c : Config) (trace : list Event) :
  exists suffix,
    messages (state (run c trace)) = (messages (state c) ++ suffix)%list.
Proof.
  revert c. induction trace as [|e trace IH]; intros c.
  - exists []. cbn. now rewrite app_nil_r.
  - rewrite run_cons. destruct (IH (step c e)) as [suffix ->].
    destruct (step_log c e) as [-> | (m & _ & _ & -> & _)].
    + now exists suffix.
    + exists (m :: suffix). now rewrite <- app_assoc.
Qed.

(** In a fresh session the style selector already holds the id of the
    first profile of the catalog, so the first generation resolves
    that profile and never the one [pickStyleProfile] returns. *)
Lemma first_generation_style
    (now : Z) (c0 : Config) (profile0 : StyleProfile) (mid : list Event)
    (outcome : Outcome) (t1 t2 t3 t4 : Z) :
  start now = Some c0 ->
  nth_error profileOptions 0 = Some profile0 ->
  profile_id profile0 <> "" ->
  forallb (fun e => negb (is_settle e || is_select e)) mid = true ->
  let after :=
    step (run c0 (Send t1 t2 :: mid)) (Settle 0 outcome t3 t4) in
  styleId (state after) = profile_id profile0
  /\ exists log a mt,
       messages (state after) = (log ++ [a])%list
       /\ msg_meta a = Some mt
       /\ meta_styleId mt = profile_id profile0.
Proof.
  intros Hstart H0 Hid Hmid after.
  assert (Hne : profileOptions <> []).
  { intros E. rewrite E in H0. discriminate. }
  unfold start, initialState in Hstart. rewrite H0 in Hstart.
  injection Hstart as <-.
  set (st := mkState _ _ _ _ _ _ _) in *.
  assert (Heff : effectiveStyleId st = profile_id profile0).
  { unfold effectiveStyleId. now rewrite or_else_truthy. }
  assert (Hres : resolveProfile (profile_id profile0) = Some profile0
                 \/ exists p, resolveProfile (profile_id profile0) = Some p
                              /\ profile_id p = profile_id profile0).
  { unfold resolveProfile.
    destruct (find _ profileOptions) as [p|] eqn:Hf; [right | now left].
    exists p. split; [reflexivity|].
    apply find_some in Hf as [_ Hf]. now apply String.eqb_eq in Hf. }
  assert (Hp : JS.trim (input st) <> "") by (vm_compute; discriminate).
  destruct (generation st mid outcome t1 t2 t3 t4 Hne Hp eq_refl)
    as (p & Hp1 & _ & Hm & _ & _ & _ & _ & _ & _ & _ & Hsty).
  { eapply forallb_imp; [|exact Hmid]. intros e.
    rewrite !negb_true_iff, orb_false_iff. tauto. }
  fold after in Hm, Hsty. split.
  - rewrite Hsty, Heff; [reflexivity|].
    eapply forallb_imp; [|exact Hmid]. intros e.
    rewrite !negb_true_iff, orb_false_iff. tauto.
  - rewrite Heff in Hp1.
    assert (Hpid : profile_id p = profile_id profile0).
    { destruct Hres as [Hres | (q & Hres & Hq)]; congruence. }
    destruct outcome; do 3 eexists; (split; [exact Hm|]);
      cbn; rewrite Hpid; split; reflexivity.
Qed.

(** ** The claims *)

(** C8. On a non-empty catalog [resolveProfile] returns, for every id
    string, a profile of the catalog: one whose id is the argument
    when the catalog has such a profile, and the catalog's first entry
    otherwise.  It never yields [undefined]. *)
Theorem resolveProfile_total (id : string) :
  profileOptions <> [] ->
  exists profile,
    resolveProfile id = Some profile
    /\ In profile profileOptions
    /\ ((exists q, In q profileOptions /\ profile_id q = id) ->
        profile_id profile = id)
    /\ ((forall q, In q profileOptions -> profile_id q <> id) ->
        nth_error profileOptions 0 = Some profile).
Proof.
  intros Hne. unfold resolveProfile.
  destruct (find (fun profile => String.eqb (profile_id profile) id)
              profileOptions) as [p|] eqn:Hfind.
  - apply find_some in Hfind as [Hin Heq]. apply String.eqb_eq in Heq.
    exists p. repeat split; try assumption.
    + intros _. assumption.
    + intros Hnone. now destruct (Hnone p Hin).
  - destruct profileOptions as [|p0 rest] eqn:Hcat; [contradiction|].
    exists p0. repeat split.
    + now left.
    + intros (q & Hq & Hid). apply (find_none _ _ Hfind) in Hq.
      apply String.eqb_neq in Hq. contradiction.
Qed.

(** C5. A submission whose trimmed prompt is empty, or made while a
    generation is in flight, changes nothing: the handler returns
    before its first setter, so the log, the counter, the busy flag,
    the style and the base image are the ones it found, and no call
    is started. *)
Theorem invalid_submission_rejected
    (now_id now_created : Z) (st : State) (calls : list InFlight) :
  JS.trim (input st) = "" \/ isBusy st = true ->
  handleSend now_id now_created st = (st, None)
  /\ step (mkConfig st calls) (Send now_id now_created) = mkConfig st calls.
Proof.
  intros H. split.
  - now apply handleSend_rejected.
  - cbn [step state inflight]. now rewrite handleSend_rejected.
Qed.

(** C4. When the promise of an accepted submission rejects, one
    assistant message is appended: the fixed apology, no image, and a
    meta holding the id of the resolved profile and the iteration
    number of the attempt, without [baseImageUsed].  The counter keeps
    the increment of the attempt, the component is idle again, and the
    style, the base image, its label and the input are untouched. *)
Theorem synthesis_failure_fallback
    (st : State) (mid : list Event) (t1 t2 t3 t4 : Z) :
  profileOptions <> [] ->
  JS.trim (input st) <> "" -> isBusy st = false ->
  forallb (fun e => negb (is_settle e)) mid = true ->
  let before := run (mkConfig st []) (Send t1 t2 :: mid) in
  let after := step before (Settle 0 Rejected t3 t4) in
  exists profile,
    resolveProfile (effectiveStyleId st) = Some profile
    /\ messages (state after)
       = (messages (state before)
          ++ [mkMessage ("assistant-error-" ++ JS.number_to_string t3)
                assistant fallbackText None t4
                (Some (mkMeta (profile_id profile) (iteration st + 1) None))])%list
    /\ iteration (state after) = iteration st + 1
    /\ isBusy (state after) = false
    /\ inflight after = []
    /\ styleId (state after) = styleId (state before)
    /\ baseImageData (state after) = baseImageData (state before)
    /\ previewBaseName (state after) = previewBaseName (state before)
    /\ input (state after) = input (state before).
Proof.
  intros Hne Hp Hb Hq before after.
  destruct (waiting_config st mid t1 t2 Hp Hb Hq)
    as (Hm & Hi & Hbz & Hf & _).
  fold before in Hm, Hi, Hbz, Hf.
  destruct (resolveProfile (effectiveStyleId st)) as [profile|] eqn:Hres;
    [| now apply resolveProfile_nonempty in Hres].
  exists profile. split; [reflexivity|].
  subst after. cbn [step]. rewrite Hf. cbn [nth_error].
  unfold handleSend_settled, accepted_call.
  cbn [call_styleProfile call_nextIteration]. rewrite Hres.
  cbn. repeat split; assumption.
Qed.

(** C2. In every configuration the component reaches, the busy flag
    is set exactly while a call of [handleSend] waits for its promise,
    and at most one call does.  An accepted submission sets the flag
    and suspends one call; the settlement of that call clears the
    flag whether the promise resolved or rejected, and the [finally]
    block clears it even when the continuation throws. *)
Theorem busy_iff_generating (now : Z) (c0 : Config) (trace : list Event) :
  start now = Some c0 ->
  let c := run c0 trace in
  (isBusy (state c) = true <-> inflight c <> [])
  /\ (length (inflight c) <= 1)%nat
  /\ (forall t1 t2,
        JS.trim (input (state c)) <> "" -> isBusy (state c) = false ->
        let c' := step c (Send t1 t2) in
        isBusy (state c') = true /\ inflight c' = [accepted_call (state c)])
  /\ (forall e,
        isBusy (state c) = true -> is_settle e = false ->
        isBusy (state (step c e)) = true /\ inflight (step c e) = inflight c)
  /\ (forall k call outcome t3 t4,
        nth_error (inflight c) k = Some call ->
        let c' := step c (Settle k outcome t3 t4) in
        isBusy (state c') = false /\ inflight c' = [])
  /\ (forall outcome t3 t4 call st,
        isBusy (handleSend_settled outcome t3 t4 call st) = false).
Proof.
  intros Hstart c.
  destruct (start_Inv now c0 Hstart) as (Hne & HI0 & _).
  pose proof (run_Inv c0 trace Hne HI0) as HI. fold c in HI.
  assert (Hsend : forall t1 t2,
             JS.trim (input (state c)) <> "" -> isBusy (state c) = false ->
             inflight c = [] ->
             let c' := step c (Send t1 t2) in
             isBusy (state c') = true
             /\ inflight c' = [accepted_call (state c)]).
  { intros t1 t2 Hp Hb Hf. cbv zeta. rewrite step_send_accepted by assumption.
    cbn [state inflight]. now rewrite Hf. }
  assert (Hquiet : forall e,
             isBusy (state c) = true -> is_settle e = false ->
             isBusy (state (step c e)) = true
             /\ inflight (step c e) = inflight c).
  { intros e Hb He.
    destruct (step_busy_frame c e Hb He) as [(_ & _ & Hb' & Hf') _].
    split; congruence. }
  assert (Hfin : forall outcome t3 t4 call st,
             isBusy (handleSend_settled outcome t3 t4 call st) = false).
  { intros. apply handleSend_settled_frame. }
  destruct HI as [_ [(Hb & Hf & _) | (Hb & call & Hf & _)]].
  - split; [rewrite Hb, Hf; split; [discriminate | congruence]|].
    split; [rewrite Hf; cbn; lia|].
    split; [intros t1 t2 Hp Hb'; now apply Hsend|].
    split; [exact Hquiet|]. split; [|exact Hfin].
    intros k call outcome t3 t4 Hk. rewrite Hf in Hk. now destruct k.
  - split; [rewrite Hf; split; [discriminate | intros _; exact Hb]|].
    split; [rewrite Hf; cbn; lia|].
    split; [intros t1 t2 Hp Hb'; congruence|].
    split; [exact Hquiet|]. split; [|exact Hfin].
    intros k call' outcome t3 t4 Hk. cbv zeta. cbn [step]. rewrite Hk.
    cbn [state inflight]. split; [apply Hfin|].
    rewrite Hf in *. destruct k as [|[|k]]; cbn in Hk; [reflexivity | discriminate..].
Qed.

(** C3. The counter starts at 0.  An accepted submission adds exactly
    1 to it; nothing else writes it, so it keeps that value whether
    the promise resolves or rejects.  The assistant message a
    settlement appends carries the value the counter then has, and the
    iteration numbers of the log never decrease. *)
Theorem iteration_counter (now : Z) (c0 : Config) (trace : list Event) :
  start now = Some c0 ->
  let c := run c0 trace in
  iteration (state c0) = 0
  /\ (forall t1 t2,
        JS.trim (input (state c)) <> "" -> isBusy (state c) = false ->
        iteration (state (step c (Send t1 t2))) = iteration (state c) + 1)
  /\ (forall e,
        (forall t1 t2, e = Send t1 t2 ->
           JS.trim (input (state c)) = "" \/ isBusy (state c) = true) ->
        iteration (state (step c e)) = iteration (state c))
  /\ (forall k call outcome t3 t4,
        nth_error (inflight c) k = Some call ->
        exists m,
          messages (state (step c (Settle k outcome t3 t4)))
          = (messages (state c) ++ [m])%list
          /\ msg_role m = assistant
          /\ option_map meta_iteration (msg_meta m)
             = Some (iteration (state c)))
  /\ StronglySorted Z.le (log_iterations (messages (state c))).
Proof.
  intros Hstart c.
  destruct (start_Inv now c0 Hstart) as (Hne & HI0 & Hzero).
  pose proof (run_Inv c0 trace Hne HI0) as HI. fold c in HI.
  split; [exact Hzero|]. split; [|split; [|split]].
  - intros t1 t2 Hp Hb. now rewrite step_send_accepted.
  - intros e Hrej. destruct e; cbn [step state].
    + reflexivity.
    + reflexivity.
    + reflexivity.
    + apply handleAdoptBase_core.
    + reflexivity.
    + now rewrite handleSend_rejected by (eapply Hrej; reflexivity).
    + destruct (nth_error (inflight c) k); [|reflexivity].
      apply handleSend_settled_frame.
  - intros k call outcome t3 t4 Hk.
    destruct HI as [_ [(_ & Hf & _) | (_ & call' & Hf & Hit & Hprof & _)]];
      rewrite Hf in Hk; [now destruct k|].
    destruct k as [|[|k]]; cbn in Hk; try discriminate.
    injection Hk as ->. cbn [step]. rewrite Hf. cbn [nth_error].
    unfold handleSend_settled.
    destruct (call_styleProfile call) as [profile|]; [|contradiction].
    destruct outcome; eexists; cbn; (split; [reflexivity|]);
      (split; [reflexivity|]); now rewrite Hit.
  - apply StronglySorted_lt_le. apply HI.
Qed.

(** C6. Two consecutive accepted submissions with no style selection
    between them yield assistant messages with the same
    [meta.styleId], whatever their prompts and outcomes and whatever
    else the user does meanwhile.  The style selector holds a
    non-empty id, or the style picker never returns a profile with an
    empty id. *)
Theorem style_sticky
    (st : State) (mid1 mid2 mid3 : list Event) (o1 o2 : Outcome)
    (t1 t2 t3 t4 t5 t6 t7 t8 : Z) :
  profileOptions <> [] ->
  (styleId st <> "" \/ forall seed, profile_id (pickStyleProfile seed) <> "") ->
  JS.trim (input st) <> "" -> isBusy st = false ->
  forallb (fun e => negb (is_settle e || is_select e)) mid1 = true ->
  forallb (fun e => negb (is_settle e || is_send e || is_select e)) mid2 = true ->
  forallb (fun e => negb (is_settle e)) mid3 = true ->
  let c1 := run (mkConfig st [])
              (Send t1 t2 :: mid1 ++ [Settle 0 o1 t3 t4] ++ mid2) in
  JS.trim (input (state c1)) <> "" ->
  let c2 := run c1 (Send t5 t6 :: mid3 ++ [Settle 0 o2 t7 t8]) in
  exists u1 a1 u2 a2 meta1 meta2,
    messages (state c2) = (messages st ++ [u1; a1; u2; a2])%list
    /\ msg_role u1 = user /\ msg_role a1 = assistant
    /\ msg_role u2 = user /\ msg_role a2 = assistant
    /\ msg_meta a1 = Some meta1 /\ msg_meta a2 = Some meta2
    /\ meta_styleId meta1 = meta_styleId meta2.
Proof.
  intros Hne Hid Hp Hb H1 H2 H3 c1 Hp2 c2.
  assert (Hq : forall l,
             forallb (fun e => negb (is_settle e || is_select e)) l = true ->
             forallb (fun e => negb (is_settle e)) l = true
             /\ forallb (fun e => negb (is_select e)) l = true).
  { intros l Hl. split; (eapply forallb_imp; [|exact Hl]); intros e;
      rewrite !negb_true_iff, orb_false_iff; tauto. }
  destruct (Hq mid1 H1) as [H1a H1b]. pose proof H3 as H3a.
  (* the first generation *)
  destruct (generation st mid1 o1 t1 t2 t3 t4 Hne Hp Hb H1a)
    as (p1 & Hres1 & Hm1 & Hm1' & _ & Hb1 & Hf1 & _ & _ & _ & _ & Hs1).
  specialize (Hs1 H1b). rewrite Hm1 in Hm1'.
  set (g1 := step (run (mkConfig st []) (Send t1 t2 :: mid1))
               (Settle 0 o1 t3 t4)) in *.
  (* the idle stretch up to the second submission *)
  assert (Hc1 : c1 = run g1 mid2).
  { subst c1 g1. rewrite app_comm_cons, !run_app. reflexivity. }
  destruct (run_idle_frame g1 mid2) as [(Hm2 & _ & Hb2 & Hf2) Hs2].
  { eapply forallb_imp; [|exact H2]. intros e.
    rewrite !negb_true_iff, !orb_false_iff. tauto. }
  rewrite <- Hc1 in Hm2, Hb2, Hf2, Hs2.
  assert (Hs2' : styleId (state c1) = styleId (state g1)).
  { apply Hs2. eapply forallb_imp; [|exact H2]. intros e.
    rewrite !negb_true_iff, !orb_false_iff. tauto. }
  clear Hs2.
  rewrite Hm1' in Hm2. rewrite Hb1 in Hb2. rewrite Hf1 in Hf2.
  (* the second generation *)
  assert (Hcfg : c1 = mkConfig (state c1) []).
  { destruct c1 as [s1 f1]. cbn in *. now subst f1. }
  assert (Hsid : styleId (state c1) <> "").
  { rewrite Hs2', Hs1. unfold effectiveStyleId. apply or_else_nonempty.
    destruct Hid as [Hid | Hid]; [now left | right; apply Hid]. }
  assert (Heff : effectiveStyleId (state c1) = effectiveStyleId st).
  { unfold effectiveStyleId at 1. rewrite or_else_truthy by assumption.
    now rewrite Hs2', Hs1. }
  subst c2. rewrite app_comm_cons, run_app, Hcfg.
  destruct (generation (state c1) mid3 o2 t5 t6 t7 t8 Hne Hp2 Hb2 H3a)
    as (p2 & Hres2 & Hm3 & Hm3' & _).
  cbn [run fold_left] in *. rewrite Hm3', Hm3.
  rewrite Heff, Hres1 in Hres2. injection Hres2 as <-.
  unfold accepted_state. cbn [messages]. rewrite Hm2.
  unfold accepted_state. cbn [messages].
  do 4 eexists.
  exists (mkMeta (profile_id p1) (iteration st + 1)
            match o1 with
            | Resolved _ => Some (JS.Boolean (baseImageData st))
            | Rejected => None
            end).
  exists (mkMeta (profile_id p1) (iteration (state c1) + 1)
            match o2 with
            | Resolved _ => Some (JS.Boolean (baseImageData (state c1)))
            | Rejected => None
            end).
  split.
  { rewrite <- !app_assoc. cbn [app]. reflexivity. }
  unfold settled_message. destruct o1, o2; cbn; repeat split.
Qed.

(** C7. The [meta.baseImageUsed] of the assistant message of a
    successful generation is [Boolean(baseImageData)] for the base
    image the submission found: the flag comes from the argument
    passed to the compositor, not from the image it returned or from
    what the user did to the base while the promise was pending.  For
    a base image that is not the empty string the flag is true exactly
    when a base image was there; and it is true for a submission made
    after adopting the image of a message that bears one, as long as
    the base was not replaced or cleared in between. *)
Theorem baseImageUsed_flag
    (st : State) (mid : list Event) (image : string) (t1 t2 t3 t4 : Z) :
  profileOptions <> [] ->
  JS.trim (input st) <> "" -> isBusy st = false ->
  forallb (fun e => negb (is_settle e)) mid = true ->
  let before := run (mkConfig st []) (Send t1 t2 :: mid) in
  let after := step before (Settle 0 (Resolved image) t3 t4) in
  exists a mt,
    messages (state after) = (messages (state before) ++ [a])%list
    /\ msg_role a = assistant
    /\ msg_image a = Some image
    /\ msg_meta a = Some mt
    /\ meta_baseImageUsed mt = Some (JS.Boolean (baseImageData st))
    /\ (baseImageData st <> Some "" ->
        (meta_baseImageUsed mt = Some true <-> baseImageData st <> None))
    /\ (forall c0 m idle,
          JS.Boolean (msg_image m) = true ->
          forallb (fun e => negb (touches_base e)) idle = true ->
          state (run (step c0 (AdoptBase (msg_image m))) idle) = st ->
          meta_baseImageUsed mt = Some true).
Proof.
  intros Hne Hp Hb Hq before after.
  destruct (generation st mid (Resolved image) t1 t2 t3 t4 Hne Hp Hb Hq)
    as (profile & _ & _ & Hm & _).
  fold before in Hm. fold after in Hm.
  eexists. eexists. split; [exact Hm|].
  cbn. repeat split.
  - intros [= Hflag]. intros Hnone. rewrite Hnone in Hflag. discriminate.
  - intros Hsome. destruct (baseImageData st) as [data|]; [|contradiction].
    cbn. f_equal. apply truthy_true. intros ->. contradiction.
  - intros c0 m idle Him Hidle Hst.
    destruct (run_base_frame (step c0 (AdoptBase (msg_image m))) idle Hidle)
      as [Hbase _].
    cbn [step] in Hst, Hbase. rewrite Hst in Hbase. rewrite Hbase.
    cbn [state].
    destruct (handleAdoptBase_adopts (msg_image m) (state c0) Him) as [-> _].
    now rewrite Him.
Qed.

(** C10. A submission and its settlement, with either outcome, leave
    the base image and its label as they were, and the call captures
    the base image the submission found; so over any sequence of
    events without an upload, a clearing or an adoption of an image,
    the base image and the label stay the same and every call started
    meanwhile carries that base.  Adopting from a message without an
    image changes nothing at all. *)
Theorem base_image_frame (c : Config) (trace : list Event) :
  forallb (fun e => negb (touches_base e)) trace = true ->
  let c' := run c trace in
  baseImageData (state c') = baseImageData (state c)
  /\ previewBaseName (state c') = previewBaseName (state c)
  /\ (Forall (fun call => call_baseImageData call = baseImageData (state c))
        (inflight c) ->
      Forall (fun call => call_baseImageData call = baseImageData (state c))
        (inflight c'))
  /\ (forall t1 t2 st,
        baseImageData (fst (handleSend t1 t2 st)) = baseImageData st
        /\ previewBaseName (fst (handleSend t1 t2 st)) = previewBaseName st
        /\ (forall call,
              snd (handleSend t1 t2 st) = Some call ->
              call_baseImageData call = baseImageData st))
  /\ (forall outcome t3 t4 call st,
        baseImageData (handleSend_settled outcome t3 t4 call st)
        = baseImageData st
        /\ previewBaseName (handleSend_settled outcome t3 t4 call st)
           = previewBaseName st)
  /\ (forall image st,
        JS.Boolean image = false -> handleAdoptBase image st = st).
Proof.
  intros Hq c'.
  destruct (run_base_frame c trace Hq) as (Hbz & Hn & Hall).
  split; [exact Hbz|]. split; [exact Hn|]. split; [exact Hall|].
  split; [|split].
  - intros t1 t2 st. apply handleSend_base.
  - intros outcome t3 t4 call st.
    destruct (handleSend_settled_frame outcome t3 t4 call st)
      as (_ & _ & _ & _ & H1 & H2).
    now split.
  - intros image st Him. unfold handleAdoptBase.
    destruct image as [data|]; [|reflexivity].
    cbn in Him. now rewrite Him.
Qed.

(** C9 (amended). The log only grows: whatever happens, the messages
    already in it stay, unchanged and in place.  The ids of the log
    are pairwise distinct provided the clock readings printed into
    the ids are pairwise distinct within each kind of message (user,
    assistant, assistant-error).  The reading carried by an event that
    appends no message is never looked at, so it can be taken fresh. *)
Theorem log_append_only_ids_distinct
    (now : Z) (c0 : Config) (trace : list Event) :
  start now = Some c0 ->
  NoDup (id_stamps trace) ->
  NoDup (map msg_id (messages (state (run c0 trace))))
  /\ (forall c tr,
        exists suffix,
          messages (state (run c tr)) = (messages (state c) ++ suffix)%list).
Proof.
  intros Hstart Hnd. split.
  - now apply (ids_from_stamps now c0 trace Hstart Hnd).
  - intros c tr. apply run_log_prefix.
Qed.

(** ** Further properties of the component *)

(** What a step can do to the log, the counter, the busy flag and the
    suspended calls of a configuration that satisfies the invariant:
    nothing, start the one generation, or settle it. *)
Lemma step_cases (c : Config) (e : Event) :
  Inv c ->
  core_eq c (step c e)
  \/ (isBusy (state c) = false
      /\ exists t1 t2,
           e = Send t1 t2
           /\ JS.trim (input (state c)) <> ""
           /\ step c e
              = mkConfig (accepted_state t1 t2 (state c))
                         [accepted_call (state c)])
  \/ (isBusy (state c) = true
      /\ exists call profile outcome t3 t4,
           e = Settle 0 outcome t3 t4
           /\ inflight c = [call]
           /\ call_styleProfile call = Some profile
           /\ call_nextIteration call = iteration (state c)
           /\ step c e
              = mkConfig
                  (setIsBusy false
                     (setMessages
                        (fun prev =>
                           prev ++ [settled_message outcome t3 t4
                                      (call_prompt call) profile
                                      (call_nextIteration call)
                                      (call_baseImageData call)])%list
                        (state c)))
                  []).
Proof.
  intros HI.
  destruct (is_settle e) eqn:Hset.
  - destruct e; try discriminate.
    destruct HI as [_ [(Hb & Hf & _) | (Hb & call & Hf & Hit & Hprof & _)]].
    + left. cbn [step]. rewrite Hf. destruct k; cbn; unfold core_eq; auto.
    + destruct k as [|k].
      * right. right. split; [exact Hb|].
        destruct (call_styleProfile call) as [profile|] eqn:Hp;
          [|contradiction].
        exists call, profile, outcome, now_id, now_created.
        repeat split; try assumption.
        cbn [step]. rewrite Hf. cbn [nth_error remove_nth].
        unfold handleSend_settled, settled_message. rewrite Hp.
        destruct outcome; reflexivity.
      * left. cbn [step]. rewrite Hf. destruct k; cbn; unfold core_eq; auto.
  - destruct (is_send e) eqn:Hsend.
    + destruct e; try discriminate.
      destruct (isBusy (state c)) eqn:Hb.
      * left. cbn [step]. rewrite handleSend_rejected by now right.
        unfold core_eq. cbn. auto.
      * destruct (string_dec (JS.trim (input (state c))) "") as [Hp|Hp].
        -- left. cbn [step]. rewrite handleSend_rejected by now left.
           unfold core_eq. cbn. auto.
        -- right. left. split; [reflexivity|].
           exists now_id, now_created. repeat split; try assumption.
           rewrite step_send_accepted by assumption.
           destruct HI as [_ [(_ & Hf & _) | (Hb' & _)]]; [|congruence].
           now rewrite Hf.
    + left. now apply step_idle_frame.
Qed.

(** Induction over the configurations the component reaches. *)
Lemma reachable_ind (P : Config -> Prop) :
  (forall now c0, start now = Some c0 -> P c0) ->
  (forall c e, profileOptions <> [] -> Inv c -> P c -> P (step c e)) ->
  forall now c0 trace, start now = Some c0 -> P (run c0 trace).
Proof.
  intros Hinit Hstep now c0 trace Hstart.
  destruct (start_Inv now c0 Hstart) as (Hne & HI0 & _).
  pose proof (Hinit now c0 Hstart) as HP0. clear Hstart.
  revert c0 HI0 HP0. induction trace as [|e trace IH]; intros c HI HP.
  - exact HP.
  - rewrite run_cons. apply IH; [now apply step_Inv | now apply Hstep].
Qed.

Lemma start_state (now : Z) (c0 : Config) :
  start now = Some c0 ->
  exists profile0,
    nth_error profileOptions 0 = Some profile0
    /\ c0 = mkConfig
              (mkState
                 [mkMessage "init-assistant" assistant initText None now
                    (Some (mkMeta (profile_id profile0) 0 None))]
                 initInput false (profile_id profile0) 0 None None)
              [].
Proof.
  unfold start, initialState.
  destruct (nth_error profileOptions 0) as [p0|]; [|discriminate].
  intros [= <-]. now exists p0.
Qed.

Lemma resolveProfile_in (id : string) (profile : StyleProfile) :
  resolveProfile id = Some profile -> In profile profileOptions.
Proof.
  unfold resolveProfile.
  destruct (find _ profileOptions) as [p|] eqn:Hf.
  - intros [= <-]. now apply find_some in Hf.
  - apply nth_error_In.
Qed.

Lemma resolveProfile_known (id : string) :
  (exists q, In q profileOptions /\ profile_id q = id) ->
  exists profile,
    resolveProfile id = Some profile /\ profile_id profile = id.
Proof.
  intros (q & Hq & Hid). unfold resolveProfile.
  destruct (find (fun profile => String.eqb (profile_id profile) id)
              profileOptions) as [p|] eqn:Hf.
  - exists p. split; [reflexivity|].
    apply find_some in Hf as [_ Hf]. now apply String.eqb_eq.
  - apply (find_none _ _ Hf) in Hq. apply String.eqb_neq in Hq. contradiction.
Qed.

Lemma turns_snoc (n : nat) :
  (turns n ++ [user; assistant])%list = turns (S n).
Proof.
  induction n as [|n IH]; [reflexivity|].
  cbn [turns app]. rewrite IH. reflexivity.
Qed.

Lemma find_by_id (l : list StyleProfile) (profile : StyleProfile) :
  NoDup (map profile_id l) -> In profile l ->
  find (fun p => String.eqb (profile_id p) (profile_id profile)) l
  = Some profile.
Proof.
  induction l as [|p0 rest IH]; intros Hnd Hin; [contradiction|].
  cbn [map] in Hnd. apply NoDup_cons_iff in Hnd as [Hfresh Hnd].
  cbn [find]. destruct Hin as [-> | Hin].
  - now rewrite String.eqb_refl.
  - destruct (String.eqb_spec (profile_id p0) (profile_id profile)) as [E|_].
    + exfalso. apply Hfresh. rewrite E. now apply in_map.
    + now apply IH.
Qed.

(** X1. The send button is disabled exactly in the states in which
    [handleSend] returns at its guard; when it is enabled, a click
    starts a generation. *)
Theorem send_button_agrees_with_handler (t1 t2 : Z) (st : State) :
  (sendDisabled st = true <-> handleSend t1 t2 st = (st, None))
  /\ (sendDisabled st = false <->
      handleSend t1 t2 st = (accepted_state t1 t2 st, Some (accepted_call st))).
Proof.
  unfold sendDisabled.
  destruct (isBusy st) eqn:Hb; cbn [orb].
  - rewrite handleSend_rejected by now right.
    repeat split; intros; try reflexivity; discriminate.
  - destruct (JS.truthy (JS.trim (input st))) eqn:Hp; cbn [negb].
    + apply truthy_true in Hp. rewrite handleSend_accepted by assumption.
      repeat split; intros; try reflexivity; discriminate.
    + apply truthy_false in Hp. rewrite handleSend_rejected by now left.
      repeat split; intros; try reflexivity; discriminate.
Qed.

(** X2. [handleKeyDown] swallows Enter without Shift and nothing else:
    any other key, and Shift+Enter, leave the event and the state
    alone; Enter without Shift is always prevented, and starts a
    generation exactly when the send button is enabled, so that Enter
    pressed on a blank input or during a generation does nothing. *)
Theorem handleKeyDown_cases (event : KeyEvent) (t1 t2 : Z) (st : State) :
  (key event <> "Enter" \/ shiftKey event = true ->
   handleKeyDown event t1 t2 st = (false, (st, None)))
  /\ (key event = "Enter" -> shiftKey event = false ->
      sendDisabled st = true ->
      handleKeyDown event t1 t2 st = (true, (st, None)))
  /\ (key event = "Enter" -> shiftKey event = false ->
      sendDisabled st = false ->
      handleKeyDown event t1 t2 st
      = (true, (accepted_state t1 t2 st, Some (accepted_call st)))).
Proof.
  unfold handleKeyDown. repeat split.
  - intros [Hk | Hs].
    + apply String.eqb_neq in Hk. now rewrite Hk.
    + rewrite Hs. now rewrite andb_false_r.
  - intros -> -> Hd. cbn. f_equal.
    unfold sendDisabled in Hd. apply orb_true_iff in Hd as [Hb | Hp].
    + apply handleSend_rejected. now right.
    + apply handleSend_rejected. left. apply truthy_false.
      now apply negb_true_iff.
  - intros -> -> Hd. cbn. f_equal.
    unfold sendDisabled in Hd. apply orb_false_iff in Hd as [Hb Hp].
    apply handleSend_accepted; [|assumption].
    apply truthy_true. now apply negb_false_iff.
Qed.

(** X3. On a catalog whose ids are pairwise distinct, [resolveProfile]
    gives back every profile of the catalog from its id. *)
Theorem resolveProfile_round_trip (profile : StyleProfile) :
  NoDup (map profile_id profileOptions) ->
  In profile profileOptions ->
  resolveProfile (profile_id profile) = Some profile.
Proof.
  intros Hnd Hin. unfold resolveProfile.
  now rewrite (find_by_id profileOptions profile Hnd Hin).
Qed.

(** X4. Every message of a reachable log is well formed: a user
    message has a non-empty text, no image and no meta; an assistant
    message has a meta, and has an image exactly when its meta has
    [baseImageUsed].  So the image, its badge and the button "Usar
    como base" only ever appear on the assistant message of a
    successful generation. *)
Theorem log_messages_wellformed (now : Z) (c0 : Config) (trace : list Event) :
  start now = Some c0 ->
  let log := messages (state (run c0 trace)) in
  Forall message_ok log
  /\ (forall m, In m log -> imageBadge m <> None ->
        msg_role m = assistant
        /\ exists mt b,
             msg_meta m = Some mt /\ meta_baseImageUsed mt = Some b).
Proof.
  intros Hstart log.
  assert (Hok : Forall message_ok log).
  { subst log. revert now c0 trace Hstart.
    apply (reachable_ind (fun c => Forall message_ok (messages (state c)))).
    - intros now c0 Hstart.
      destruct (start_state now c0 Hstart) as (p0 & _ & ->).
      cbn. constructor; [|constructor].
      unfold message_ok. cbn. eexists. split; [reflexivity|]. easy.
    - intros c e _ HI HP.
      destruct (step_cases c e HI)
        as [(Hm & _) | [(_ & t1 & t2 & _ & Hp & ->)
                       | (_ & call & profile & o & t3 & t4 & _ & _ & _ & _ & ->)]].
      + now rewrite Hm.
      + cbn. apply Forall_app. split; [assumption|].
        constructor; [|constructor]. unfold message_ok. cbn. easy.
      + cbn. apply Forall_app. split; [assumption|].
        constructor; [|constructor]. unfold message_ok.
        destruct o; cbn; eexists; (split; [reflexivity|]); cbn;
          split; intros; (discriminate || reflexivity). }
  split; [exact Hok|].
  intros m Hin Hbadge.
  pose proof (proj1 (Forall_forall _ _) Hok m Hin) as Hm.
  unfold message_ok in Hm. unfold imageBadge in Hbadge.
  destruct (msg_role m).
  - destruct Hm as (_ & Himg & _). rewrite Himg in Hbadge. now cbn in Hbadge.
  - split; [reflexivity|]. destruct Hm as (mt & Hmt & Hiff).
    exists mt. destruct (meta_baseImageUsed mt) as [b|].
    + now exists b.
    + destruct Hiff as [_ Himg]. rewrite (Himg eq_refl) in Hbadge.
      now cbn in Hbadge.
Qed.

(** X5. In every reachable configuration the log is the greeting
    followed by complete exchanges, a user message and then one
    assistant message each, plus the user message of the generation in
    flight, if any.  The counter is the number of user messages, and
    the iteration numbers of the log are 0, 1, 2, ... without gap or
    repetition. *)
Theorem log_alternates (now : Z) (c0 : Config) (trace : list Event) :
  start now = Some c0 ->
  let st := state (run c0 trace) in
  exists n,
    map msg_role (messages st)
    = (assistant :: turns n ++ (if isBusy st then [user] else []))%list
    /\ iteration st = Z.of_nat n + (if isBusy st then 1 else 0)
    /\ log_iterations (messages st) = map Z.of_nat (seq 0 (S n)).
Proof.
  revert now c0 trace.
  apply (reachable_ind
           (fun c =>
              exists n,
                map msg_role (messages (state c))
                = (assistant
                   :: turns n ++ (if isBusy (state c) then [user] else []))%list
                /\ iteration (state c)
                   = Z.of_nat n + (if isBusy (state c) then 1 else 0)
                /\ log_iterations (messages (state c))
                   = map Z.of_nat (seq 0 (S n)))).
  - intros now c0 Hstart.
    destruct (start_state now c0 Hstart) as (p0 & _ & ->).
    exists 0%nat. cbn. easy.
  - intros c e _ HI (n & Hroles & Hit & Hlog).
    destruct (step_cases c e HI)
      as [(Hm & Hi & Hb & _)
         | [(Hb & t1 & t2 & _ & _ & ->)
           | (Hb & call & profile & o & t3 & t4 & _ & _ & _ & Hnext & ->)]].
    + exists n. now rewrite Hm, Hi, Hb.
    + exists n. rewrite Hb in *. cbn [state accepted_state messages isBusy iteration].
      rewrite map_app, Hroles, log_iterations_snoc. cbn [msg_meta map].
      rewrite !app_nil_r. split; [reflexivity|]. split; [lia | assumption].
    + exists (S n). rewrite Hb in *.
      cbn [state setIsBusy setMessages messages isBusy iteration].
      rewrite map_app, Hroles, log_iterations_snoc. repeat split.
      * cbn [map]. rewrite app_nil_r, <- turns_snoc.
        destruct o; cbn; now rewrite <- app_assoc.
      * lia.
      * rewrite Hlog, (seq_S (S n)), map_app. cbn [map Nat.add].
        f_equal. destruct o; cbn [settled_message msg_meta meta_iteration];
          rewrite Hnext, Hit; f_equal; lia.
Qed.

(** X6. The footer of a message never falls back to another profile
    and never fails: every [meta.styleId] stored in a reachable log is
    the id of the catalog profile that [resolveProfile] returns for
    it. *)
Theorem footer_shows_own_profile (now : Z) (c0 : Config) (trace : list Event) :
  start now = Some c0 ->
  forall m, In m (messages (state (run c0 trace))) ->
    metaFooter m <> None
    /\ forall mt, msg_meta m = Some mt ->
         exists profile,
           resolveProfile (meta_styleId mt) = Some profile
           /\ profile_id profile = meta_styleId mt.
Proof.
  intros Hstart.
  assert (H : Forall (fun call => forall p, call_styleProfile call = Some p ->
                                            In p profileOptions)
                (inflight (run c0 trace))
              /\ Forall (fun m => forall mt, msg_meta m = Some mt ->
                           exists q, In q profileOptions
                                     /\ profile_id q = meta_styleId mt)
                   (messages (state (run c0 trace)))).
  { revert now c0 trace Hstart.
    apply (reachable_ind
             (fun c =>
                Forall (fun call => forall p, call_styleProfile call = Some p ->
                                              In p profileOptions)
                  (inflight c)
                /\ Forall (fun m => forall mt, msg_meta m = Some mt ->
                             exists q, In q profileOptions
                                       /\ profile_id q = meta_styleId mt)
                     (messages (state c)))).
    - intros now c0 Hstart.
      destruct (start_state now c0 Hstart) as (p0 & Hp0 & ->).
      cbn. split; [constructor|]. constructor; [|constructor].
      cbn. intros mt [= <-]. exists p0. split; [|reflexivity].
      eapply nth_error_In; eassumption.
    - intros c e _ HI (Hcalls & Hlog).
      destruct (step_cases c e HI)
        as [(Hm & _ & _ & Hf)
           | [(_ & t1 & t2 & _ & _ & ->)
             | (_ & call & profile & o & t3 & t4 & _ & Hf & Hp & _ & ->)]].
      + now rewrite Hm, Hf.
      + cbn. split.
        * constructor; [|constructor]. cbn. intros p.
          apply resolveProfile_in.
        * apply Forall_app. split; [assumption|].
          constructor; [|constructor]. cbn. discriminate.
      + cbn. split; [constructor|].
        apply Forall_app. split; [assumption|].
        constructor; [|constructor].
        rewrite Hf in Hcalls. inversion Hcalls as [|? ? Hcall _]; subst.
        intros mt Hmt. exists profile. split; [now apply Hcall|].
        destruct o; cbn in Hmt; injection Hmt as <-; reflexivity. }
  destruct H as [_ Hlog]. intros m Hin.
  pose proof (proj1 (Forall_forall _ _) Hlog m Hin) as Hm. cbn beta in Hm.
  split.
  - unfold metaFooter. destruct (msg_meta m) as [mt|]; [|discriminate].
    destruct (msg_role m); [discriminate|].
    destruct (resolveProfile_known (meta_styleId mt) (Hm mt eq_refl))
      as (p & -> & _). discriminate.
  - intros mt Hmt. apply resolveProfile_known. now apply Hm.
Qed.

Lemma handleSend_styleId (t1 t2 : Z) (st : State) :
  styleId st <> "" ->
  styleId (fst (handleSend t1 t2 st)) = styleId st
  /\ forall call,
       snd (handleSend t1 t2 st) = Some call ->
       call_styleProfile call = resolveProfile (styleId st).
Proof.
  intros Hid. unfold handleSend.
  destruct (negb (JS.truthy (JS.trim (input st))) || isBusy st).
  - cbn. split; [reflexivity | discriminate].
  - rewrite (or_else_truthy _ _ Hid). apply truthy_true in Hid. rewrite Hid.
    cbn. split; [reflexivity|]. now intros call [= <-].
Qed.

Lemma input_empty_frame (c : Config) (trace : list Event) :
  input (state c) = "" ->
  forallb (fun e => negb (is_typing e)) trace = true ->
  input (state (run c trace)) = "".
Proof.
  revert c. induction trace as [|e trace IH]; intros c Hin Hq; [exact Hin|].
  cbn [forallb] in Hq. apply andb_true_iff in Hq as [He Hq].
  rewrite run_cons. apply IH; [|exact Hq].
  destruct e; try discriminate; cbn [step state]; try assumption.
  - now rewrite (proj2 (proj2 (proj2 (proj2
                   (handleAdoptBase_core image (state c)))))).
  - rewrite handleSend_rejected; [assumption|]. left. now rewrite Hin.
  - destruct (nth_error (inflight c) k) as [call|]; [|assumption].
    cbn [state].
    destruct (handleSend_settled_frame outcome now_id now_created call (state c))
      as (_ & _ & _ & -> & _). assumption.
Qed.

(** X7. When the catalog has no empty id and the select control
    reports ids of its options, the style selector always holds the id
    of a catalog profile.  A submission then never writes the
    selector, and the profile it generates with is the one the
    selector names: the result of [pickStyleProfile] is never used. *)
Theorem selector_names_the_style (now : Z) (c0 : Config) (trace : list Event) :
  start now = Some c0 ->
  Forall (fun profile => profile_id profile <> "") profileOptions ->
  forallb select_ok trace = true ->
  let st := state (run c0 trace) in
  In (styleId st) (map profile_id profileOptions)
  /\ forall t1 t2,
       styleId (fst (handleSend t1 t2 st)) = styleId st
       /\ forall call,
            snd (handleSend t1 t2 st) = Some call ->
            exists profile,
              call_styleProfile call = Some profile
              /\ profile_id profile = styleId st.
Proof.
  intros Hstart Hids Hsel st.
  assert (Hnonempty : forall id, In id (map profile_id profileOptions) ->
                                 id <> "").
  { intros id Hin. apply in_map_iff in Hin as (p & <- & Hp).
    revert p Hp. now apply Forall_forall. }
  assert (Hin : In (styleId st) (map profile_id profileOptions)).
  { subst st. destruct (start_state now c0 Hstart) as (p0 & Hp0 & ->).
    clear Hstart.
    set (c := mkConfig _ _).
    assert (H0 : In (styleId (state c)) (map profile_id profileOptions)).
    { cbn. apply in_map. eapply nth_error_In; eassumption. }
    clearbody c. revert c H0.
    induction trace as [|e trace IH]; intros c H0; [exact H0|].
    cbn [forallb] in Hsel. apply andb_true_iff in Hsel as [He Hsel].
    rewrite run_cons. apply IH; [exact Hsel|].
    destruct e; cbn [step state]; try assumption.
    - cbn in He. apply existsb_exists in He as (id & Hid & Heq).
      apply String.eqb_eq in Heq. now subst.
    - now rewrite (proj1 (proj2 (proj2 (proj2
                     (handleAdoptBase_core image (state c)))))).
    - destruct (handleSend_styleId now_id now_created (state c)
                  (Hnonempty _ H0)) as [Hs _].
      destruct (handleSend now_id now_created (state c)) as [st' [call|]];
        cbn [fst state] in *; now rewrite Hs.
    - destruct (nth_error (inflight c) k) as [call|]; [|assumption].
      cbn [state].
      destruct (handleSend_settled_frame outcome now_id now_created call
                  (state c)) as (_ & _ & -> & _). assumption. }
  split; [exact Hin|]. intros t1 t2.
  destruct (handleSend_styleId t1 t2 st (Hnonempty _ Hin)) as [Hs Hcall].
  split; [exact Hs|]. intros call Hc. rewrite (Hcall call Hc).
  apply resolveProfile_known.
  apply in_map_iff in Hin as (p & Hp & Hinp). now exists p.
Qed.

(** X8. The base image and its label are set and cleared together: in
    every reachable configuration one is present exactly when the
    other is, so the preview never shows the stand-in label "Imagem
    carregada". *)
Theorem base_and_label_in_sync (now : Z) (c0 : Config) (trace : list Event) :
  start now = Some c0 ->
  let st := state (run c0 trace) in
  (baseImageData st = None <-> previewBaseName st = None)
  /\ (baseCaption st = None
      \/ exists name,
           previewBaseName st = Some name
           /\ baseCaption st = Some ("Base ativa: " ++ name)).
Proof.
  intros Hstart st.
  assert (Hsync : baseImageData st = None <-> previewBaseName st = None).
  { subst st. destruct (start_state now c0 Hstart) as (p0 & _ & ->).
    clear Hstart. set (c := mkConfig _ _).
    assert (H0 : baseImageData (state c) = None
                 <-> previewBaseName (state c) = None) by easy.
    clearbody c. revert c H0.
    induction trace as [|e trace IH]; intros c H0; [exact H0|].
    rewrite run_cons. apply IH.
    destruct (touches_base e) eqn:Ht.
    - destruct e; try discriminate; cbn [step state].
      + cbn. split; discriminate.
      + destruct (handleAdoptBase_adopts image (state c) Ht) as [-> ->].
        destruct image; [split; discriminate | discriminate].
      + cbn. easy.
    - destruct (step_base_frame c e Ht) as (-> & -> & _). exact H0. }
  split; [exact Hsync|].
  unfold baseCaption. destruct (JS.Boolean (baseImageData st)) eqn:Hb;
    [right | now left].
  destruct (previewBaseName st) as [name|] eqn:Hn.
  - now exists name.
  - rewrite (proj2 Hsync eq_refl) in Hb. discriminate.
Qed.

(** X9. A prompt is sent once: an accepted submission empties the
    input, and until the user types again every further click or Enter
    is refused - also after the generation has settled. *)
Theorem prompt_sent_once
    (st : State) (calls : list InFlight) (mid : list Event) (t1 t2 t3 t4 : Z) :
  JS.trim (input st) <> "" -> isBusy st = false ->
  forallb (fun e => negb (is_typing e)) mid = true ->
  let c := run (mkConfig st calls) (Send t1 t2 :: mid) in
  input (state c) = "" /\ step c (Send t3 t4) = c.
Proof.
  intros Hp Hb Hq c.
  assert (Hin : input (state c) = "").
  { subst c. rewrite run_cons, step_send_accepted by assumption.
    now apply input_empty_frame. }
  split; [exact Hin|].
  cbn [step]. rewrite handleSend_rejected by (left; now rewrite Hin).
  now destruct c.
Qed.

(** X10. After the base image is cleared, the next successful
    generation is an original composition: its meta has
    [baseImageUsed] false, its caption is the one for no base, and its
    badge, when the image is shown, reads "Composição original". *)
Theorem clear_then_generate
    (c0 : Config) (idle : list Event) (st : State) (mid : list Event)
    (image : string) (t1 t2 t3 t4 : Z) :
  profileOptions <> [] ->
  forallb (fun e => negb (touches_base e)) idle = true ->
  state (run (step c0 ClearBase) idle) = st ->
  JS.trim (input st) <> "" -> isBusy st = false ->
  forallb (fun e => negb (is_settle e)) mid = true ->
  let before := run (mkConfig st []) (Send t1 t2 :: mid) in
  let after := step before (Settle 0 (Resolved image) t3 t4) in
  exists a profile,
    messages (state after) = (messages (state before) ++ [a])%list
    /\ resolveProfile (effectiveStyleId st) = Some profile
    /\ msg_meta a
       = Some (mkMeta (profile_id profile) (iteration st + 1) (Some false))
    /\ msg_text a = buildAssistantCaption (JS.trim (input st)) profile false
    /\ (image <> "" -> imageBadge a = Some "Composição original").
Proof.
  intros Hne Hidle Hst Hp Hb Hq before after.
  assert (Hbase : baseImageData st = None).
  { destruct (run_base_frame (step c0 ClearBase) idle Hidle) as [Hbz _].
    cbn [step] in Hst, Hbz. rewrite Hst in Hbz. exact Hbz. }
  destruct (generation st mid (Resolved image) t1 t2 t3 t4 Hne Hp Hb Hq)
    as (profile & Hres & _ & Hm & _).
  fold before in Hm. fold after in Hm. rewrite Hbase in Hm.
  eexists. exists profile. split; [exact Hm|]. split; [exact Hres|].
  cbn. repeat split.
  intros Himg. unfold imageBadge. cbn.
  apply truthy_true in Himg. now rewrite Himg.
Qed.

(** X11. After an image is uploaded, the next successful generation is
    a transformation of it: its meta has [baseImageUsed] true, its
    caption is the one for a base, and its badge reads "Transformação
    estilizada". *)
Theorem upload_then_generate
    (c0 : Config) (result name : string) (idle : list Event) (st : State)
    (mid : list Event) (image : string) (t1 t2 t3 t4 : Z) :
  profileOptions <> [] ->
  result <> "" ->
  forallb (fun e => negb (touches_base e)) idle = true ->
  state (run (step c0 (FileLoaded result name)) idle) = st ->
  JS.trim (input st) <> "" -> isBusy st = false ->
  forallb (fun e => negb (is_settle e)) mid = true ->
  let before := run (mkConfig st []) (Send t1 t2 :: mid) in
  let after := step before (Settle 0 (Resolved image) t3 t4) in
  exists a profile,
    messages (state after) = (messages (state before) ++ [a])%list
    /\ resolveProfile (effectiveStyleId st) = Some profile
    /\ msg_meta a
       = Some (mkMeta (profile_id profile) (iteration st + 1) (Some true))
    /\ msg_text a = buildAssistantCaption (JS.trim (input st)) profile true
    /\ (image <> "" -> imageBadge a = Some "Transformação estilizada")
    /\ previewBaseName st = Some name.
Proof.
  intros Hne Hres0 Hidle Hst Hp Hb Hq before after.
  destruct (run_base_frame (step c0 (FileLoaded result name)) idle Hidle)
    as (Hbz & Hnm & _).
  cbn [step] in Hst, Hbz, Hnm. rewrite Hst in Hbz, Hnm. cbn in Hbz, Hnm.
  destruct (generation st mid (Resolved image) t1 t2 t3 t4 Hne Hp Hb Hq)
    as (profile & Hres & _ & Hm & _).
  fold before in Hm. fold after in Hm. rewrite Hbz in Hm.
  apply truthy_true in Hres0.
  eexists. exists profile. split; [exact Hm|]. split; [exact Hres|].
  cbn. rewrite Hres0. repeat split; [|exact Hnm].
  intros Himg. unfold imageBadge. cbn.
  apply truthy_true in Himg. now rewrite Himg.
Qed.

(** X12. The caption of a successful generation and the badge under
    its image never disagree: the caption opens with "Transformei"
    exactly when the meta says a base image was used, and with
    "Modelei" otherwise. *)
Theorem caption_agrees_with_badge
    (image : string) (t3 t4 : Z) (call : InFlight) (profile : StyleProfile)
    (st : State) :
  call_styleProfile call = Some profile ->
  exists m,
    messages (handleSend_settled (Resolved image) t3 t4 call st)
    = (messages st ++ [m])%list
    /\ String.prefix "Transformei" (msg_text m) = usedBase m
    /\ String.prefix "Modelei" (msg_text m) = negb (usedBase m).
Proof.
  intros Hp. unfold handleSend_settled. rewrite Hp.
  eexists. split; [reflexivity|].
  unfold usedBase, buildAssistantCaption. cbn.
  destruct (JS.Boolean (call_baseImageData call)); split; reflexivity.
Qed.

(** X13. A message id determines the kind of the message and the clock
    reading printed into it; and every message a step appends has such
    an id, for the reading its event carries. *)
Theorem ids_determine_kind_and_reading :
  (forall k k' t t',
      message_id k t = message_id k' t' <-> k = k' /\ t = t')
  /\ (forall c e m,
        messages (state (step c e)) = (messages (state c) ++ [m])%list ->
        exists k t, msg_id m = message_id k t /\ id_stamps [e] = [(k, t)]).
Proof.
  split.
  - intros k k' t t'. split.
    + intros H. apply message_id_inj in H. now injection H.
    + now intros [-> ->].
  - intros c e m Hm.
    destruct (step_log c e) as [Hs | (m' & k & t & Hs & Hid & He)].
    + rewrite Hs in Hm. apply (f_equal (@List.length _)) in Hm.
      rewrite length_app in Hm. cbn in Hm. lia.
    + rewrite Hs in Hm. apply app_inv_head in Hm. injection Hm as <-.
      now exists k, t.
Qed.

(** *** Trimming and splitting *)

Lemma append_assoc (a b c : string) : (a ++ b) ++ c = a ++ (b ++ c).
Proof. induction a as [|x a IH]; cbn; [reflexivity | now rewrite IH]. Qed.

Lemma length_append (a b : string) :
  String.length (a ++ b) = (String.length a + String.length b)%nat.
Proof. induction a as [|x a IH]; cbn; [reflexivity | now rewrite IH]. Qed.

Lemma strip_prefix_spec (p s r : string) :
  JS.strip_prefix p s = Some r -> s = p ++ r.
Proof.
  revert s. induction p as [|a p IH]; intros s; cbn.
  - now intros [= ->].
  - destruct s as [|b s]; [discriminate|].
    destruct (Ascii.eqb_spec a b) as [->|_]; [|discriminate].
    intros H. now rewrite (IH s H).
Qed.

Lemma strip_prefix_app (p s r post : string) :
  JS.strip_prefix p s = Some r ->
  JS.strip_prefix p (s ++ post) = Some (r ++ post).
Proof.
  revert s. induction p as [|a p IH]; intros s; cbn.
  - now intros [= ->].
  - destruct s as [|b s]; [discriminate|]. cbn.
    destruct (Ascii.eqb a b); [apply IH | discriminate].
Qed.

Lemma strip_any_spec (ws : list string) (s r : string) :
  JS.strip_any ws s = Some r -> exists w, In w ws /\ s = w ++ r.
Proof.
  induction ws as [|w ws IH]; cbn; [discriminate|].
  destruct (JS.strip_prefix w s) as [r'|] eqn:Hw.
  - intros [= ->]. exists w. split; [now left | now apply strip_prefix_spec].
  - intros H. destruct (IH H) as (w' & Hin & Heq). exists w'. auto.
Qed.

Lemma strip_any_app (ws : list string) (s r post : string) :
  JS.strip_any ws s = Some r -> JS.strip_any ws (s ++ post) <> None.
Proof.
  induction ws as [|w ws IH]; cbn; [discriminate|].
  destruct (JS.strip_prefix w s) as [r'|] eqn:Hw.
  - intros _. now rewrite (strip_prefix_app _ _ _ post Hw).
  - intros H. destruct (JS.strip_prefix w (s ++ post)); [discriminate|].
    now apply IH.
Qed.

Lemma strip_any_empty (ws : list string) :
  (forall w, In w ws -> w <> "") -> JS.strip_any ws "" = None.
Proof.
  induction ws as [|w ws IH]; intros Hne; [reflexivity|]. cbn.
  destruct w as [|a w]; [now destruct (Hne "" (or_introl eq_refl))|].
  cbn. apply IH. intros w' Hin. apply Hne. now right.
Qed.

Lemma strip_all_suffix (ws : list string) (fuel : nat) (s : string) :
  exists pre, s = pre ++ JS.strip_all ws fuel s.
Proof.
  revert s. induction fuel as [|fuel IH]; intros s; cbn.
  - now exists "".
  - destruct (JS.strip_any ws s) as [r|] eqn:Hs; [|now exists ""].
    destruct (strip_any_spec ws s r Hs) as (w & _ & ->).
    destruct (IH r) as (pre & Hr). exists (w ++ pre).
    rewrite append_assoc. now rewrite <- Hr.
Qed.

Lemma strip_all_done (ws : list string) (fuel : nat) (s : string) :
  (forall w, In w ws -> w <> "") ->
  (String.length s <= fuel)%nat ->
  JS.strip_any ws (JS.strip_all ws fuel s) = None.
Proof.
  intros Hne. revert s. induction fuel as [|fuel IH]; intros s Hlen; cbn.
  - destruct s; [now apply strip_any_empty | cbn in Hlen; lia].
  - destruct (JS.strip_any ws s) as [r|] eqn:Hs; [|exact Hs].
    apply IH. destruct (strip_any_spec ws s r Hs) as (w & Hin & ->).
    rewrite length_append in Hlen.
    destruct w as [|a w]; [now destruct (Hne "" Hin)|]. cbn in Hlen. lia.
Qed.

Lemma strip_all_fixed (ws : list string) (fuel : nat) (s : string) :
  JS.strip_any ws s = None -> JS.strip_all ws fuel s = s.
Proof. intros H. destruct fuel; cbn; [reflexivity | now rewrite H]. Qed.

Lemma chars_app (a b : string) :
  list_ascii_of_string (a ++ b)
  = (list_ascii_of_string a ++ list_ascii_of_string b)%list.
Proof. induction a as [|c a IH]; cbn; [reflexivity | now rewrite IH]. Qed.

Lemma string_of_chars_app (l1 l2 : list ascii) :
  string_of_list_ascii (l1 ++ l2)
  = string_of_list_ascii l1 ++ string_of_list_ascii l2.
Proof. induction l1 as [|c l1 IH]; cbn; [reflexivity | now rewrite IH]. Qed.

Lemma reverse_involutive (s : string) : JS.reverse (JS.reverse s) = s.
Proof.
  unfold JS.reverse.
  now rewrite list_ascii_of_string_of_list_ascii, rev_involutive,
    string_of_list_ascii_of_string.
Qed.

Lemma reverse_app (a b : string) :
  JS.reverse (a ++ b) = JS.reverse b ++ JS.reverse a.
Proof.
  unfold JS.reverse. now rewrite chars_app, rev_app_distr, string_of_chars_app.
Qed.

Lemma reverse_length (s : string) :
  String.length (JS.reverse s) = String.length s.
Proof.
  unfold JS.reverse.
  rewrite <- (string_of_list_ascii_of_string s) at 2.
  generalize (list_ascii_of_string s). intros l.
  assert (H : forall l', String.length (string_of_list_ascii l')
                         = List.length l').
  { induction l' as [|c l' IH]; cbn; [reflexivity | now rewrite IH]. }
  now rewrite !H, length_rev.
Qed.

Lemma whitespace_nonempty (w : string) : In w JS.whitespace -> w <> "".
Proof.
  assert (H : forallb JS.truthy JS.whitespace = true) by reflexivity.
  intros Hin. apply truthy_true. revert w Hin. now apply forallb_forall.
Qed.

Lemma reversed_whitespace_nonempty (w : string) :
  In w (map JS.reverse JS.whitespace) -> w <> "".
Proof.
  assert (H : forallb JS.truthy (map JS.reverse JS.whitespace) = true)
    by reflexivity.
  intros Hin. apply truthy_true. revert w Hin. now apply forallb_forall.
Qed.

Lemma trimStart_spec (s : string) :
  (exists pre, s = pre ++ JS.trimStart s)
  /\ JS.strip_any JS.whitespace (JS.trimStart s) = None.
Proof.
  unfold JS.trimStart. split.
  - apply strip_all_suffix.
  - apply strip_all_done; [exact whitespace_nonempty | lia].
Qed.

Lemma trimEnd_spec (s : string) :
  (exists post, s = JS.trimEnd s ++ post)
  /\ JS.strip_any (map JS.reverse JS.whitespace) (JS.reverse (JS.trimEnd s))
     = None.
Proof.
  unfold JS.trimEnd. split.
  - destruct (strip_all_suffix (map JS.reverse JS.whitespace)
                (String.length s) (JS.reverse s)) as (pre & Hpre).
    exists (JS.reverse pre).
    rewrite <- reverse_app, <- Hpre. now rewrite reverse_involutive.
  - rewrite reverse_involutive.
    apply strip_all_done; [exact reversed_whitespace_nonempty|].
    now rewrite reverse_length.
Qed.

(** What [trim] returns: a piece of its argument that neither starts
    nor ends with white space, and that [trim] leaves as it is. *)
Lemma trim_spec (s : string) :
  (exists pre post, s = pre ++ JS.trim s ++ post)
  /\ JS.strip_any JS.whitespace (JS.trim s) = None
  /\ JS.strip_any (map JS.reverse JS.whitespace) (JS.reverse (JS.trim s))
     = None
  /\ JS.trim (JS.trim s) = JS.trim s.
Proof.
  destruct (trimStart_spec s) as [(pre & Hpre) Hstart].
  destruct (trimEnd_spec (JS.trimStart s)) as [(post & Hpost) Hend].
  fold (JS.trim s) in Hpost, Hend.
  assert (Hclean : JS.strip_any JS.whitespace (JS.trim s) = None).
  { destruct (JS.strip_any JS.whitespace (JS.trim s)) as [r|] eqn:Hr;
      [|reflexivity].
    apply (strip_any_app _ _ _ post) in Hr. rewrite <- Hpost in Hr.
    contradiction. }
  split; [|split; [exact Hclean | split; [exact Hend|]]].
  - exists pre, post. now rewrite <- Hpost.
  - unfold JS.trim at 1. unfold JS.trimStart at 1.
    rewrite (strip_all_fixed _ _ _ Hclean). unfold JS.trimEnd.
    rewrite (strip_all_fixed _ _ _ Hend). apply reverse_involutive.
Qed.

Lemma trim_chars (s : string) (c : ascii) :
  In c (list_ascii_of_string (JS.trim s)) -> In c (list_ascii_of_string s).
Proof.
  destruct (trim_spec s) as [(pre & post & Hs) _]. intros Hin.
  rewrite Hs, !chars_app. apply in_or_app. right. apply in_or_app. now left.
Qed.

Lemma split_pieces (delim : ascii -> bool) (s : string) :
  JS.split delim s <> []
  /\ Forall (fun piece =>
               forall c, In c (list_ascii_of_string piece) -> delim c = false)
       (JS.split delim s).
Proof.
  induction s as [|a s [Hne IH]]; cbn.
  - split; [discriminate|]. constructor; [|constructor]. now intros c [].
  - destruct (delim a) eqn:Ha.
    + split; [discriminate|]. constructor; [|exact IH]. now intros c [].
    + destruct (JS.split delim s) as [|piece pieces]; [contradiction|].
      split; [discriminate|]. inversion IH as [|? ? Hp Hps]; subst.
      constructor; [|exact Hps].
      intros c [<- | Hin]; [exact Ha | now apply Hp].
Qed.

Lemma split_no_delimiter (delim : ascii -> bool) (s : string) :
  (forall c, In c (list_ascii_of_string s) -> delim c = false) ->
  JS.split delim s = [s].
Proof.
  induction s as [|a s IH]; intros H; cbn; [reflexivity|].
  rewrite (H a (or_introl eq_refl)).
  rewrite IH; [reflexivity|]. intros c Hc. apply H. now right.
Qed.

Lemma split_only_delimiters (delim : ascii -> bool) (s : string) :
  (forall c, In c (list_ascii_of_string s) -> delim c = true) ->
  Forall (fun piece => piece = "") (JS.split delim s).
Proof.
  induction s as [|a s IH]; intros H; cbn.
  - constructor; [reflexivity | constructor].
  - rewrite (H a (or_introl eq_refl)). constructor; [reflexivity|].
    apply IH. intros c Hc. apply H. now right.
Qed.

Lemma Forall_firstn {A : Type} (P : A -> Prop) (n : nat) (l : list A) :
  Forall P l -> Forall P (firstn n l).
Proof.
  intros H. revert n. induction H as [|x l Hx Hl IH]; intros n.
  - rewrite firstn_nil. constructor.
  - destruct n; cbn; constructor; auto.
Qed.

(** X14. The prompt of an accepted submission - the text of its user
    message and the prompt handed to the compositor - is the input
    without the white space at its ends: a non-empty piece of the
    input that neither starts nor ends with white space and that
    trimming leaves unchanged. *)
Theorem prompt_is_trimmed (t1 t2 : Z) (st : State) (call : InFlight) :
  snd (handleSend t1 t2 st) = Some call ->
  let prompt := call_prompt call in
  prompt <> ""
  /\ JS.trim prompt = prompt
  /\ (exists pre post, input st = pre ++ prompt ++ post)
  /\ JS.strip_any JS.whitespace prompt = None
  /\ JS.strip_any (map JS.reverse JS.whitespace) (JS.reverse prompt) = None
  /\ exists u,
       messages (fst (handleSend t1 t2 st)) = (messages st ++ [u])%list
       /\ msg_role u = user /\ msg_text u = prompt.
Proof.
  intros Hcall prompt.
  destruct (string_dec (JS.trim (input st)) "") as [Hp|Hp];
    [rewrite handleSend_rejected in Hcall by (now left); discriminate|].
  destruct (isBusy st) eqn:Hb;
    [rewrite handleSend_rejected in Hcall by (now right); discriminate|].
  rewrite handleSend_accepted in * by assumption.
  cbn [fst snd] in *. injection Hcall as <-.
  subst prompt. cbn [accepted_call call_prompt].
  destruct (trim_spec (input st)) as (Hsub & Hstart & Hend & Hidem).
  repeat split; try assumption.
  eexists. cbn. repeat split.
Qed.

(** X15. [summarizePrompt] names at most the first two clauses of the
    prompt that are not blank: each is non-empty, trimmed and free of
    the delimiters [,.;] and line feed.  A prompt made only of
    delimiters gets the stock phrase, and a trimmed, non-empty prompt
    without delimiter is quoted whole, in lower case. *)
Theorem summarizePrompt_keywords (prompt : string) :
  let keywords := promptKeywords prompt in
  (List.length keywords <= 2)%nat
  /\ Forall (fun k =>
               k <> "" /\ JS.trim k = k
               /\ forall c, In c (list_ascii_of_string k) ->
                            is_clause_delimiter c = false)
       keywords
  /\ summarizePrompt prompt
     = match keywords with
       | [] => "os conceitos principais do pedido"
       | [k0] => toLowerCase k0
       | k0 :: k1 :: _ => toLowerCase k0 ++ " e " ++ toLowerCase k1
       end
  /\ ((forall c, In c (list_ascii_of_string prompt) ->
                 is_clause_delimiter c = true) ->
      summarizePrompt prompt = "os conceitos principais do pedido")
  /\ (prompt <> "" -> JS.trim prompt = prompt ->
      (forall c, In c (list_ascii_of_string prompt) ->
                 is_clause_delimiter c = false) ->
      summarizePrompt prompt = toLowerCase prompt).
Proof.
  intros keywords. split; [|split; [|split; [|split]]].
  - subst keywords. unfold promptKeywords. rewrite length_firstn. lia.
  - subst keywords. unfold promptKeywords. apply Forall_firstn.
    apply Forall_forall. intros k Hk.
    apply filter_In in Hk as [Hk Htruthy].
    apply in_map_iff in Hk as (piece & <- & Hpiece).
    split; [now apply truthy_true|]. split; [apply trim_spec|].
    intros c Hc. apply trim_chars in Hc.
    destruct (split_pieces is_clause_delimiter prompt) as [_ Hall].
    exact (proj1 (Forall_forall _ _) Hall piece Hpiece c Hc).
  - reflexivity.
  - intros Hall. change (summarizePrompt prompt)
      with (match promptKeywords prompt with
            | [] => "os conceitos principais do pedido"
            | [k0] => toLowerCase k0
            | k0 :: k1 :: _ => toLowerCase k0 ++ " e " ++ toLowerCase k1
            end).
    assert (Hnil : filter JS.truthy
                     (map JS.trim (JS.split is_clause_delimiter prompt)) = []).
    { pose proof (split_only_delimiters is_clause_delimiter prompt Hall) as H.
      induction H as [|piece pieces -> _ IH]; [reflexivity | exact IH]. }
    unfold promptKeywords. now rewrite Hnil.
  - intros Hne Htrim Hfree.
    change (summarizePrompt prompt)
      with (match promptKeywords prompt with
            | [] => "os conceitos principais do pedido"
            | [k0] => toLowerCase k0
            | k0 :: k1 :: _ => toLowerCase k0 ++ " e " ++ toLowerCase k1
            end).
    unfold promptKeywords.
    rewrite (split_no_delimiter _ _ Hfree). cbn [map filter].
    rewrite Htrim. apply truthy_true in Hne. now rewrite Hne.
Qed.

(** X16. The style of a generation is fixed when it is submitted: a
    style selected while the promise is pending changes the selector,
    and with it the next generation, but the message of the pending
    one carries the id of the profile resolved at submission, and the
    iteration number taken then. *)
Theorem style_fixed_at_submission
    (st : State) (mid : list Event) (value : string) (outcome : Outcome)
    (t1 t2 t3 t4 : Z) :
  profileOptions <> [] ->
  JS.trim (input st) <> "" -> isBusy st = false ->
  forallb (fun e => negb (is_settle e)) mid = true ->
  let before :=
    run (mkConfig st []) (Send t1 t2 :: mid ++ [SelectStyle value]) in
  let after := step before (Settle 0 outcome t3 t4) in
  exists a mt profile,
    messages (state after) = (messages (state before) ++ [a])%list
    /\ msg_meta a = Some mt
    /\ resolveProfile (effectiveStyleId st) = Some profile
    /\ meta_styleId mt = profile_id profile
    /\ meta_iteration mt = iteration st + 1
    /\ styleId (state after) = value.
Proof.
  intros Hne Hp Hb Hq before after.
  assert (Hq' : forallb (fun e => negb (is_settle e))
                  (mid ++ [SelectStyle value]) = true).
  { rewrite forallb_app, Hq. reflexivity. }
  destruct (generation st (mid ++ [SelectStyle value]) outcome t1 t2 t3 t4
              Hne Hp Hb Hq')
    as (profile & Hres & _ & Hm & _ & _ & _ & _ & _ & _ & Hsty & _).
  fold before in Hm, Hsty. fold after in Hm, Hsty.
  assert (Hsel : styleId (state before) = value).
  { subst before. rewrite app_comm_cons, run_app. reflexivity. }
  assert (Hfinal : styleId (state after) = value) by congruence.
  destruct outcome; do 2 eexists; exists profile;
    (split; [exact Hm|]); (split; [reflexivity|]); (split; [exact Hres|]);
    (split; [reflexivity|]); (split; [reflexivity | exact Hfinal]).
Qed.

(** X17. The counter is never negative, and the iteration number
    handed to the compositor is always a positive integer. *)
Theorem compositor_iteration_positive
    (now : Z) (c0 : Config) (trace : list Event) :
  start now = Some c0 ->
  let c := run c0 trace in
  0 <= iteration (state c)
  /\ Forall (fun call => 1 <= call_nextIteration call) (inflight c).
Proof.
  revert now c0 trace.
  apply (reachable_ind
           (fun c =>
              0 <= iteration (state c)
              /\ Forall (fun call => 1 <= call_nextIteration call)
                   (inflight c))).
  - intros now c0 Hstart.
    destruct (start_state now c0 Hstart) as (p0 & _ & ->).
    cbn. split; [lia | constructor].
  - intros c e _ HI (Hpos & Hcalls).
    destruct (step_cases c e HI)
      as [(_ & Hi & _ & Hf)
         | [(_ & t1 & t2 & _ & _ & ->)
           | (_ & call & profile & o & t3 & t4 & _ & _ & _ & _ & ->)]].
    + now rewrite Hi, Hf.
    + cbn. split; [lia|]. constructor; [cbn; lia | constructor].
    + cbn. split; [assumption | constructor].
Qed.

End Orchestrator.

(** ** The statements on the sample catalog *)

(** C1. In a fresh session no style was chosen, and for the prompt the
    input box starts with the style picker returns the profile "noir";
    yet the selector state is not empty but holds the id of the first
    profile, so [!styleId] is false, the picked profile is dropped, and
    the first assistant message carries "aurora", as does the selector
    afterwards. *)
Theorem first_generation_ignores_selector :
  let exec := run Demo.listStyleProfiles Demo.pickStyleProfile Demo.toLowerCase in
  let c := exec Demo.c0
             [Send 5 5; Settle 0 (Resolved "data:image/png;base64,AAAA") 6 6] in
  start Demo.listStyleProfiles Demo.now = Some Demo.c0
  /\ profile_id
       (Demo.pickStyleProfile
          (JS.trim (input (state Demo.c0)) ++ styleId (state Demo.c0)))
     = "noir"
  /\ option_map (fun m => (msg_role m, option_map meta_styleId (msg_meta m)))
       (nth_error (messages (state c)) 2)
     = Some (assistant, Some "aurora")
  /\ styleId (state c) = "aurora".
Proof. vm_compute. repeat split. Qed.

Lemma resolveProfile_total_witness :
  Demo.listStyleProfiles <> []
  /\ exists profile,
       resolveProfile Demo.listStyleProfiles "stale-id" = Some profile
       /\ In profile Demo.listStyleProfiles.
Proof.
  split; [discriminate|].
  destruct (resolveProfile_total Demo.listStyleProfiles "stale-id")
    as (profile & Hres & Hin & _); [discriminate|].
  exists profile. split; assumption.
Defined.

Lemma invalid_submission_rejected_witness :
  let st := setInput "   " Demo.st0 in
  (JS.trim (input st) = "" \/ isBusy st = true)
  /\ handleSend Demo.listStyleProfiles Demo.pickStyleProfile 5 5 st = (st, None).
Proof.
  cbv zeta. split; [left; reflexivity|].
  apply (invalid_submission_rejected
           Demo.listStyleProfiles Demo.pickStyleProfile Demo.toLowerCase
           5 5 (setInput "   " Demo.st0) []).
  left; reflexivity.
Defined.

Lemma synthesis_failure_fallback_witness :
  let exec := run Demo.listStyleProfiles Demo.pickStyleProfile Demo.toLowerCase in
  let next := step Demo.listStyleProfiles Demo.pickStyleProfile Demo.toLowerCase in
  let mid := [TypeInput "x"; ClearBase; Send 6 6] in
  let after := next (exec Demo.c0 (Send 5 5 :: mid)) (Settle 0 Rejected 7 7) in
  (Demo.listStyleProfiles <> []
   /\ JS.trim (input Demo.st0) <> ""
   /\ isBusy Demo.st0 = false
   /\ forallb (fun e => negb (is_settle e)) mid = true)
  /\ iteration (state after) = 1
  /\ isBusy (state after) = false.
Proof.
  cbv zeta. split.
  - repeat split; try reflexivity; vm_compute; discriminate.
  - destruct (synthesis_failure_fallback
                Demo.listStyleProfiles Demo.pickStyleProfile Demo.toLowerCase
                Demo.st0 [TypeInput "x"; ClearBase; Send 6 6] 5 5 7 7)
      as (profile & _ & _ & Hit & Hbusy & _);
      try reflexivity; try (vm_compute; discriminate).
    split; assumption.
Defined.

Lemma busy_iff_generating_witness :
  let exec := run Demo.listStyleProfiles Demo.pickStyleProfile Demo.toLowerCase in
  let c := exec Demo.c0
             [Send 5 5; FileLoaded "data:image/png;base64,AAAA" "foto.png"] in
  start Demo.listStyleProfiles Demo.now = Some Demo.c0
  /\ (isBusy (state c) = true <-> inflight c <> [])
  /\ (length (inflight c) <= 1)%nat.
Proof.
  cbv zeta. split; [reflexivity|].
  destruct (busy_iff_generating
              Demo.listStyleProfiles Demo.pickStyleProfile Demo.toLowerCase
              Demo.now Demo.c0
              [Send 5 5; FileLoaded "data:image/png;base64,AAAA" "foto.png"]
              eq_refl)
    as (Hiff & Hlen & _).
  split; assumption.
Defined.

Lemma iteration_counter_witness :
  let exec := run Demo.listStyleProfiles Demo.pickStyleProfile Demo.toLowerCase in
  let c := exec Demo.c0
             [Send 5 5; Settle 0 (Resolved "data:image/png;base64,AAAA") 6 6;
              TypeInput "Outra, ideia."; Send 7 7; Settle 0 Rejected 8 8] in
  start Demo.listStyleProfiles Demo.now = Some Demo.c0
  /\ iteration (state Demo.c0) = 0
  /\ StronglySorted Z.le (log_iterations (messages (state c))).
Proof.
  cbv zeta. split; [reflexivity|].
  destruct (iteration_counter
              Demo.listStyleProfiles Demo.pickStyleProfile Demo.toLowerCase
              Demo.now Demo.c0
              [Send 5 5; Settle 0 (Resolved "data:image/png;base64,AAAA") 6 6;
               TypeInput "Outra, ideia."; Send 7 7; Settle 0 Rejected 8 8]
              eq_refl)
    as (Hzero & _ & _ & _ & Hsorted).
  split; assumption.
Defined.

Lemma style_sticky_witness :
  let exec := run Demo.listStyleProfiles Demo.pickStyleProfile Demo.toLowerCase in
  let mid2 := [TypeInput "Outra, ideia.";
               AdoptBase (Some "data:image/png;base64,AAAA")] in
  let c1 := exec Demo.c0
              (Send 5 5
               :: [] ++ [Settle 0 (Resolved "data:image/png;base64,AAAA") 6 6]
                  ++ mid2) in
  let c2 := exec c1 (Send 7 7 :: [] ++ [Settle 0 Rejected 8 8]) in
  (Demo.listStyleProfiles <> []
   /\ styleId Demo.st0 <> ""
   /\ JS.trim (input Demo.st0) <> ""
   /\ isBusy Demo.st0 = false
   /\ forallb (fun e => negb (is_settle e || is_send e || is_select e)) mid2
      = true
   /\ JS.trim (input (state c1)) <> "")
  /\ exists u1 a1 u2 a2 meta1 meta2,
       messages (state c2) = (messages Demo.st0 ++ [u1; a1; u2; a2])%list
       /\ msg_role u1 = user /\ msg_role a1 = assistant
       /\ msg_role u2 = user /\ msg_role a2 = assistant
       /\ msg_meta a1 = Some meta1 /\ msg_meta a2 = Some meta2
       /\ meta_styleId meta1 = meta_styleId meta2.
Proof.
  cbv zeta. split.
  - repeat split; try reflexivity; vm_compute; discriminate.
  - apply (style_sticky
             Demo.listStyleProfiles Demo.pickStyleProfile Demo.toLowerCase
             Demo.st0 []
             [TypeInput "Outra, ideia.";
              AdoptBase (Some "data:image/png;base64,AAAA")]
             [] (Resolved "data:image/png;base64,AAAA") Rejected
             5 5 6 6 7 7 8 8);
      try reflexivity; try (vm_compute; discriminate).
    left. vm_compute. discriminate.
Defined.

Lemma baseImageUsed_flag_witness :
  let exec := run Demo.listStyleProfiles Demo.pickStyleProfile Demo.toLowerCase in
  let next := step Demo.listStyleProfiles Demo.pickStyleProfile Demo.toLowerCase in
  let st := handleFileChange "data:image/png;base64,AAAA" "foto.png" Demo.st0 in
  let before := exec (mkConfig st []) (Send 5 5 :: [ClearBase]) in
  let after :=
    next before (Settle 0 (Resolved "data:image/png;base64,BBBB") 6 6) in
  (Demo.listStyleProfiles <> []
   /\ JS.trim (input st) <> ""
   /\ isBusy st = false
   /\ forallb (fun e => negb (is_settle e)) [ClearBase] = true)
  /\ exists a mt,
       messages (state after) = (messages (state before) ++ [a])%list
       /\ msg_meta a = Some mt
       /\ meta_baseImageUsed mt = Some true.
Proof.
  cbv zeta. split.
  - repeat split; try reflexivity; vm_compute; discriminate.
  - destruct (baseImageUsed_flag
                Demo.listStyleProfiles Demo.pickStyleProfile Demo.toLowerCase
                (handleFileChange "data:image/png;base64,AAAA" "foto.png"
                   Demo.st0)
                [ClearBase] "data:image/png;base64,BBBB" 5 5 6 6)
      as (a & mt & Hlog & _ & _ & Hmeta & Hflag & _);
      try reflexivity; try (vm_compute; discriminate).
    exists a, mt. repeat split; assumption.
Defined.

Lemma base_image_frame_witness :
  let exec := run Demo.listStyleProfiles Demo.pickStyleProfile Demo.toLowerCase in
  let c :=
    mkConfig
      (handleFileChange "data:image/png;base64,AAAA" "foto.png" Demo.st0) [] in
  let trace := [Send 5 5; AdoptBase None; Settle 0 Rejected 6 6;
                TypeInput "Outra, ideia."; Send 7 7;
                Settle 0 (Resolved "data:image/png;base64,BBBB") 8 8] in
  forallb (fun e => negb (touches_base e)) trace = true
  /\ baseImageData (state (exec c trace)) = Some "data:image/png;base64,AAAA"
  /\ previewBaseName (state (exec c trace)) = Some "foto.png".
Proof.
  cbv zeta. split; [reflexivity|].
  destruct (base_image_frame
              Demo.listStyleProfiles Demo.pickStyleProfile Demo.toLowerCase
              (mkConfig
                 (handleFileChange "data:image/png;base64,AAAA" "foto.png"
                    Demo.st0) [])
              [Send 5 5; AdoptBase None; Settle 0 Rejected 6 6;
               TypeInput "Outra, ideia."; Send 7 7;
               Settle 0 (Resolved "data:image/png;base64,BBBB") 8 8]
              eq_refl)
    as (Hbase & Hname & _).
  split; assumption.
Defined.

(** C9, as stated, fails: with a clock that returns the same reading
    for two submissions, the two user messages differ and share an id. *)
Lemma message_ids_collide :
  let exec := run Demo.listStyleProfiles Demo.pickStyleProfile Demo.toLowerCase in
  let t := Demo.now in
  let log :=
    messages
      (state (exec Demo.c0
                [Send t t; Settle 0 Rejected t t;
                 TypeInput "Outra, ideia."; Send t t])) in
  exists m1 m2,
    nth_error log 1 = Some m1 /\ nth_error log 3 = Some m2
    /\ m1 <> m2 /\ msg_id m1 = msg_id m2.
Proof.
  cbv zeta. do 2 eexists. split; [vm_compute; reflexivity|].
  split; [vm_compute; reflexivity|]. split; [discriminate | reflexivity].
Qed.

Lemma log_append_only_ids_distinct_witness :
  let exec := run Demo.listStyleProfiles Demo.pickStyleProfile Demo.toLowerCase in
  let trace := [Send 5 5; Settle 0 (Resolved "data:image/png;base64,AAAA") 5 5;
                TypeInput "Outra, ideia."; Send 7 7; Settle 0 Rejected 5 5] in
  (start Demo.listStyleProfiles Demo.now = Some Demo.c0
   /\ NoDup (id_stamps trace))
  /\ NoDup (map msg_id (messages (state (exec Demo.c0 trace)))).
Proof.
  cbv zeta.
  assert (Hnd : NoDup (id_stamps
                  [Send 5 5;
                   Settle 0 (Resolved "data:image/png;base64,AAAA") 5 5;
                   TypeInput "Outra, ideia."; Send 7 7; Settle 0 Rejected 5 5])).
  { cbn. repeat constructor; cbn; intuition discriminate. }
  split; [split; [reflexivity | exact Hnd]|].
  apply (log_append_only_ids_distinct
           Demo.listStyleProfiles Demo.pickStyleProfile Demo.toLowerCase
           Demo.now Demo.c0 _ eq_refl Hnd).
Defined.

(** ** The further properties on the sample catalog *)

Lemma resolveProfile_round_trip_witness :
  NoDup (map profile_id Demo.listStyleProfiles)
  /\ In Demo.noir Demo.listStyleProfiles
  /\ resolveProfile Demo.listStyleProfiles "noir" = Some Demo.noir.
Proof.
  assert (Hnd : NoDup (map profile_id Demo.listStyleProfiles)).
  { cbn. repeat constructor; cbn; intuition discriminate. }
  assert (Hin : In Demo.noir Demo.listStyleProfiles) by (right; now left).
  split; [exact Hnd|]. split; [exact Hin|].
  exact (resolveProfile_round_trip Demo.listStyleProfiles Demo.noir Hnd Hin).
Defined.

Lemma log_messages_wellformed_witness :
  let exec := run Demo.listStyleProfiles Demo.pickStyleProfile Demo.toLowerCase in
  let trace := [Send 5 5; Settle 0 (Resolved "data:image/png;base64,AAAA") 6 6;
                TypeInput "Outra, ideia."; Send 7 7; Settle 0 Rejected 8 8] in
  start Demo.listStyleProfiles Demo.now = Some Demo.c0
  /\ Forall message_ok (messages (state (exec Demo.c0 trace))).
Proof.
  cbv zeta. split; [reflexivity|].
  apply (log_messages_wellformed
           Demo.listStyleProfiles Demo.pickStyleProfile Demo.toLowerCase
           Demo.now Demo.c0 _ eq_refl).
Defined.

Lemma log_alternates_witness :
  let exec := run Demo.listStyleProfiles Demo.pickStyleProfile Demo.toLowerCase in
  let trace := [Send 5 5; Settle 0 (Resolved "data:image/png;base64,AAAA") 6 6;
                TypeInput "Outra, ideia."; Send 7 7] in
  let st := state (exec Demo.c0 trace) in
  start Demo.listStyleProfiles Demo.now = Some Demo.c0
  /\ exists n,
       map msg_role (messages st)
       = (assistant :: turns n ++ (if isBusy st then [user] else []))%list
       /\ iteration st = Z.of_nat n + (if isBusy st then 1 else 0)
       /\ log_iterations (messages st) = map Z.of_nat (seq 0 (S n)).
Proof.
  cbv zeta. split; [reflexivity|].
  apply (log_alternates
           Demo.listStyleProfiles Demo.pickStyleProfile Demo.toLowerCase
           Demo.now Demo.c0 _ eq_refl).
Defined.

Lemma footer_shows_own_profile_witness :
  let exec := run Demo.listStyleProfiles Demo.pickStyleProfile Demo.toLowerCase in
  let trace := [SelectStyle "noir"; Send 5 5;
                Settle 0 (Resolved "data:image/png;base64,AAAA") 6 6] in
  start Demo.listStyleProfiles Demo.now = Some Demo.c0
  /\ forall m, In m (messages (state (exec Demo.c0 trace))) ->
       metaFooter Demo.listStyleProfiles m <> None.
Proof.
  cbv zeta. split; [reflexivity|]. intros m Hin.
  apply (footer_shows_own_profile
           Demo.listStyleProfiles Demo.pickStyleProfile Demo.toLowerCase
           Demo.now Demo.c0 _ eq_refl m Hin).
Defined.

Lemma selector_names_the_style_witness :
  let exec := run Demo.listStyleProfiles Demo.pickStyleProfile Demo.toLowerCase in
  let trace := [Send 5 5; SelectStyle "noir"; Settle 0 Rejected 6 6;
                TypeInput "Outra, ideia."; Send 7 7] in
  (start Demo.listStyleProfiles Demo.now = Some Demo.c0
   /\ Forall (fun profile => profile_id profile <> "") Demo.listStyleProfiles
   /\ forallb (select_ok Demo.listStyleProfiles) trace = true)
  /\ In (styleId (state (exec Demo.c0 trace)))
       (map profile_id Demo.listStyleProfiles).
Proof.
  cbv zeta.
  assert (Hids : Forall (fun profile => profile_id profile <> "")
                   Demo.listStyleProfiles).
  { repeat constructor; discriminate. }
  split; [split; [reflexivity | split; [exact Hids | reflexivity]]|].
  apply (selector_names_the_style
           Demo.listStyleProfiles Demo.pickStyleProfile Demo.toLowerCase
           Demo.now Demo.c0
           [Send 5 5; SelectStyle "noir"; Settle 0 Rejected 6 6;
            TypeInput "Outra, ideia."; Send 7 7]
           eq_refl Hids eq_refl).
Defined.

Lemma base_and_label_in_sync_witness :
  let exec := run Demo.listStyleProfiles Demo.pickStyleProfile Demo.toLowerCase in
  let trace := [FileLoaded "data:image/png;base64,AAAA" "foto.png"; Send 5 5;
                Settle 0 (Resolved "data:image/png;base64,BBBB") 6 6;
                AdoptBase (Some "data:image/png;base64,BBBB")] in
  let st := state (exec Demo.c0 trace) in
  start Demo.listStyleProfiles Demo.now = Some Demo.c0
  /\ (baseImageData st = None <-> previewBaseName st = None).
Proof.
  cbv zeta. split; [reflexivity|].
  apply (base_and_label_in_sync
           Demo.listStyleProfiles Demo.pickStyleProfile Demo.toLowerCase
           Demo.now Demo.c0 _ eq_refl).
Defined.

Lemma prompt_sent_once_witness :
  let exec := run Demo.listStyleProfiles Demo.pickStyleProfile Demo.toLowerCase in
  let next := step Demo.listStyleProfiles Demo.pickStyleProfile Demo.toLowerCase in
  let mid := [Settle 0 Rejected 6 6; ClearBase] in
  let c := exec Demo.c0 (Send 5 5 :: mid) in
  (JS.trim (input Demo.st0) <> ""
   /\ isBusy Demo.st0 = false
   /\ forallb (fun e => negb (is_typing e)) mid = true)
  /\ next c (Send 7 7) = c.
Proof.
  cbv zeta. split.
  - repeat split; try reflexivity. vm_compute. discriminate.
  - apply (prompt_sent_once
             Demo.listStyleProfiles Demo.pickStyleProfile Demo.toLowerCase
             Demo.st0 [] [Settle 0 Rejected 6 6; ClearBase] 5 5 7 7);
      try reflexivity. vm_compute. discriminate.
Defined.

Lemma clear_then_generate_witness :
  let exec := run Demo.listStyleProfiles Demo.pickStyleProfile Demo.toLowerCase in
  let next := step Demo.listStyleProfiles Demo.pickStyleProfile Demo.toLowerCase in
  let loaded :=
    mkConfig
      (handleFileChange "data:image/png;base64,AAAA" "foto.png" Demo.st0) [] in
  let st := state (exec (next loaded ClearBase) []) in
  let before := exec (mkConfig st []) (Send 5 5 :: []) in
  let after :=
    next before (Settle 0 (Resolved "data:image/png;base64,BBBB") 6 6) in
  (Demo.listStyleProfiles <> []
   /\ JS.trim (input st) <> ""
   /\ isBusy st = false)
  /\ exists a profile,
       messages (state after) = (messages (state before) ++ [a])%list
       /\ msg_meta a
          = Some (mkMeta (profile_id profile) (iteration st + 1) (Some false)).
Proof.
  cbv zeta. split.
  - repeat split; try reflexivity; vm_compute; discriminate.
  - destruct (clear_then_generate
                Demo.listStyleProfiles Demo.pickStyleProfile Demo.toLowerCase
                (mkConfig
                   (handleFileChange "data:image/png;base64,AAAA" "foto.png"
                      Demo.st0) [])
                [] _ [] "data:image/png;base64,BBBB" 5 5 6 6
                ltac:(discriminate) eq_refl eq_refl
                ltac:(vm_compute; discriminate) eq_refl eq_refl)
      as (a & profile & Hlog & _ & Hmeta & _).
    exists a, profile. split; assumption.
Defined.

Lemma upload_then_generate_witness :
  let exec := run Demo.listStyleProfiles Demo.pickStyleProfile Demo.toLowerCase in
  let next := step Demo.listStyleProfiles Demo.pickStyleProfile Demo.toLowerCase in
  let st :=
    state (exec (next Demo.c0
                   (FileLoaded "data:image/png;base64,AAAA" "foto.png")) []) in
  let before := exec (mkConfig st []) (Send 5 5 :: []) in
  let after :=
    next before (Settle 0 (Resolved "data:image/png;base64,BBBB") 6 6) in
  (Demo.listStyleProfiles <> []
   /\ "data:image/png;base64,AAAA" <> ""
   /\ JS.trim (input st) <> ""
   /\ isBusy st = false)
  /\ exists a profile,
       messages (state after) = (messages (state before) ++ [a])%list
       /\ msg_meta a
          = Some (mkMeta (profile_id profile) (iteration st + 1) (Some true)).
Proof.
  cbv zeta. split.
  - repeat split; try reflexivity; vm_compute; discriminate.
  - destruct (upload_then_generate
                Demo.listStyleProfiles Demo.pickStyleProfile Demo.toLowerCase
                Demo.c0 "data:image/png;base64,AAAA" "foto.png"
                [] _ [] "data:image/png;base64,BBBB" 5 5 6 6
                ltac:(discriminate) ltac:(discriminate) eq_refl eq_refl
                ltac:(vm_compute; discriminate) eq_refl eq_refl)
      as (a & profile & Hlog & _ & Hmeta & _).
    exists a, profile. split; assumption.
Defined.

Lemma caption_agrees_with_badge_witness :
  let call :=
    mkInFlight "um farol" (Some Demo.noir) 1
      (Some "data:image/png;base64,AAAA") in
  call_styleProfile call = Some Demo.noir
  /\ exists m,
       messages (handleSend_settled Demo.toLowerCase
                   (Resolved "data:image/png;base64,BBBB") 6 6 call Demo.st0)
       = (messages Demo.st0 ++ [m])%list
       /\ String.prefix "Transformei" (msg_text m) = usedBase m.
Proof.
  cbv zeta. split; [reflexivity|].
  destruct (caption_agrees_with_badge Demo.toLowerCase
              "data:image/png;base64,BBBB" 6 6
              (mkInFlight "um farol" (Some Demo.noir) 1
                 (Some "data:image/png;base64,AAAA"))
              Demo.noir Demo.st0 eq_refl)
    as (m & Hlog & Hpre & _).
  exists m. split; assumption.
Defined.

Lemma prompt_is_trimmed_witness :
  let st := setInput "   um farol, ao luar  " Demo.st0 in
  let call :=
    mkInFlight "um farol, ao luar" (Some Demo.aurora) 1 None in
  snd (handleSend Demo.listStyleProfiles Demo.pickStyleProfile 5 5 st)
  = Some call
  /\ JS.trim (call_prompt call) = call_prompt call.
Proof.
  cbv zeta. split; [reflexivity|].
  apply (prompt_is_trimmed
           Demo.listStyleProfiles Demo.pickStyleProfile 5 5
           (setInput "   um farol, ao luar  " Demo.st0)
           (mkInFlight "um farol, ao luar" (Some Demo.aurora) 1 None)
           eq_refl).
Defined.

Lemma style_fixed_at_submission_witness :
  let exec := run Demo.listStyleProfiles Demo.pickStyleProfile Demo.toLowerCase in
  let next := step Demo.listStyleProfiles Demo.pickStyleProfile Demo.toLowerCase in
  let before := exec (mkConfig Demo.st0 []) (Send 5 5 :: [] ++ [SelectStyle "noir"]) in
  let after := next before (Settle 0 Rejected 6 6) in
  (Demo.listStyleProfiles <> []
   /\ JS.trim (input Demo.st0) <> ""
   /\ isBusy Demo.st0 = false)
  /\ exists a mt,
       messages (state after) = (messages (state before) ++ [a])%list
       /\ msg_meta a = Some mt
       /\ meta_styleId mt = "aurora"
       /\ styleId (state after) = "noir".
Proof.
  cbv zeta. split.
  - repeat split; try reflexivity; vm_compute; discriminate.
  - destruct (style_fixed_at_submission
                Demo.listStyleProfiles Demo.pickStyleProfile Demo.toLowerCase
                Demo.st0 [] "noir" Rejected 5 5 6 6
                ltac:(discriminate) ltac:(vm_compute; discriminate)
                eq_refl eq_refl)
      as (a & mt & profile & Hlog & Hmeta & Hres & Hid & _ & Hsel).
    exists a, mt. repeat split; try assumption.
    rewrite Hid. vm_compute in Hres. injection Hres as <-. reflexivity.
Defined.

Lemma compositor_iteration_positive_witness :
  let exec := run Demo.listStyleProfiles Demo.pickStyleProfile Demo.toLowerCase in
  let trace := [Send 5 5; Settle 0 Rejected 6 6;
                TypeInput "Outra, ideia."; Send 7 7] in
  start Demo.listStyleProfiles Demo.now = Some Demo.c0
  /\ Forall (fun call => 1 <= call_nextIteration call)
       (inflight (exec Demo.c0 trace)).
Proof.
  cbv zeta. split; [reflexivity|].
  apply (compositor_iteration_positive
           Demo.listStyleProfiles Demo.pickStyleProfile Demo.toLowerCase
           Demo.now Demo.c0 _ eq_refl).
Defined.
